(** * A shallow embedding of the plane-based space partitioner
      (src/src/partition.cpp)

    The partitioner computes with C++ [float] (IEEE-754 binary32) through
    the GLM vector library.  Numbers are modelled by the Standard Library's
    specification of IEEE arithmetic, [spec_float], instantiated at
    precision 24 and maximal exponent 128, so that rounding, overflow,
    underflow, infinities, signed zeros and NaN behave as they do in the
    program, and every function can be evaluated on concrete planes.

    The member functions of [SpacePartitioner] mutate the object; here each
    one is a function from the state of the object to its new state.
    [std::vector] is a list, a [for] loop a left fold, and a [try] block a
    value of type [outcome].

    The file has three parts: the program, the notions and concrete inputs
    the statements use, and the properties. *)

From Stdlib Require Import ZArith List Bool Lia PeanoNat.
From Stdlib Require Import Floats.SpecFloat.
From Stdlib Require Import Sorting.Permutation Sorting.Sorted.
From Stdlib Require Import QArith Lqa.
Import ListNotations.

Set Implicit Arguments.

Local Open Scope Z_scope.

(** ** binary32 arithmetic *)

Module F32.

Definition prec : Z := 24.
Definition emax : Z := 128.

Definition float : Type := spec_float.

Definition add : float -> float -> float := SFadd prec emax.
Definition sub : float -> float -> float := SFsub prec emax.
Definition mul : float -> float -> float := SFmul prec emax.
Definition div : float -> float -> float := SFdiv prec emax.
Definition sqrt : float -> float := SFsqrt prec emax.
Definition neg : float -> float := SFopp.
Definition abs : float -> float := SFabs.

(** The C++ comparisons [<], [>] and [<=]; all are false when an operand
    is NaN. *)
Definition ltb : float -> float -> bool := SFltb.
Definition gtb (x y : float) : bool := SFltb y x.
Definition leb : float -> float -> bool := SFleb.

(** Conversion of an integer literal, and of a dyadic literal
    [m * 2^e]. *)
Definition of_Z (z : Z) : float := binary_normalize prec emax z 0 false.
Definition of_dyadic (m e : Z) : float := binary_normalize prec emax m e false.

Definition zero : float := S754_zero false.
Definition one : float := S754_finite false 8388608 (-23).
Definition two : float := S754_finite false 8388608 (-22).
Definition half : float := S754_finite false 8388608 (-24).
Definition hundred : float := S754_finite false 13107200 (-17).

(** The literal [0.0001f]: the binary32 number nearest to 1/10000,
    bit pattern 0x38D1B717. *)
Definition tolerance : float := S754_finite false 13743895 (-37).

(** [FLT_MAX] of <cfloat>. *)
Definition FLT_MAX : float := S754_finite false 16777215 104.

Definition is_nan (x : float) : bool :=
  match x with S754_nan => true | _ => false end.

Definition is_finite (x : float) : bool :=
  match x with S754_zero _ | S754_finite _ _ _ => true | _ => false end.

Definition valid (x : float) : bool := valid_binary prec emax x.

(** [std::min(a, b)] is [(b < a) ? b : a]; [std::max(a, b)] is
    [(a < b) ? b : a]. *)
Definition std_min (a b : float) : float := if ltb b a then b else a.
Definition std_max (a b : float) : float := if ltb a b then b else a.


End F32.

Abbreviation float := F32.float.

Declare Scope f32_scope.
Delimit Scope f32_scope with F.
Infix "+" := F32.add : f32_scope.
Infix "-" := F32.sub : f32_scope.
Infix "*" := F32.mul : f32_scope.
Infix "/" := F32.div : f32_scope.
Notation "- x" := (F32.neg x) : f32_scope.
Infix "<?" := F32.ltb : f32_scope.
Infix ">?" := F32.gtb : f32_scope.

(** ** The part of GLM the program calls

    GLM is a header library outside the repository.  The definitions below
    follow its generic (non-SIMD) implementation for [vec3] and [mat3] of
    [float], expression by expression. *)

Module glm.

Record vec3 : Type := mkvec3 { x : float; y : float; z : float }.

(** [glm::vec3(s)]: the same scalar in the three components. *)
Definition splat (s : float) : vec3 := mkvec3 s s s.

Definition vadd (u v : vec3) : vec3 :=
  mkvec3 (x u + x v)%F (y u + y v)%F (z u + z v)%F.
Definition vsub (u v : vec3) : vec3 :=
  mkvec3 (x u - x v)%F (y u - y v)%F (z u - z v)%F.
Definition vneg (u : vec3) : vec3 :=
  mkvec3 (- x u)%F (- y u)%F (- z u)%F.
Definition scale (u : vec3) (s : float) : vec3 :=
  mkvec3 (x u * s)%F (y u * s)%F (z u * s)%F.

(** [glm::abs] on a scalar is [x >= 0 ? x : -x], which keeps the sign of a
    negative zero; on a vector it acts on each component. *)
Definition abs1 (s : float) : float :=
  if F32.leb F32.zero s then s else (- s)%F.

Definition abs (u : vec3) : vec3 :=
  mkvec3 (abs1 (x u)) (abs1 (y u)) (abs1 (z u)).

(** [glm::dot]: [tmp = a * b; return tmp.x + tmp.y + tmp.z]. *)
Definition dot (u v : vec3) : float :=
  ((x u * x v) + (y u * y v) + (z u * z v))%F.

(** [glm::inversesqrt(s)] is [1 / sqrt(s)]. *)
Definition inversesqrt (s : float) : float := (F32.one / F32.sqrt s)%F.

(** [glm::normalize(v)] is [v * inversesqrt(dot(v, v))]. *)
Definition normalize (v : vec3) : vec3 := scale v (inversesqrt (dot v v)).

(** [glm::cross]. *)
Definition cross (u v : vec3) : vec3 :=
  mkvec3 (y u * z v - y v * z u)%F
         (z u * x v - z v * x u)%F
         (x u * y v - x v * y u)%F.

(** [glm::epsilonEqual(u, v, eps)] is [lessThan(abs(u - v), vec3(eps))],
    a vector of booleans; [glm::all] is their conjunction. *)
Record bvec3 : Type := mkbvec3 { bx : bool; by_ : bool; bz : bool }.

Definition epsilonEqual (u v : vec3) (eps : float) : bvec3 :=
  let d := abs (vsub u v) in
  mkbvec3 (x d <? eps)%F (y d <? eps)%F (z d <? eps)%F.

Definition all (b : bvec3) : bool := bx b && by_ b && bz b.

(** [glm::mat3] is stored by columns; [col0 m] is [m[0]], and [m[c][r]]
    is component [r] of column [c].  The nine-scalar constructor fills
    column 0 first, then column 1, then column 2. *)
Record mat3 : Type := mkmat3 { col0 : vec3; col1 : vec3; col2 : vec3 }.

Definition mat3_of_scalars (x0 y0 z0 x1 y1 z1 x2 y2 z2 : float) : mat3 :=
  mkmat3 (mkvec3 x0 y0 z0) (mkvec3 x1 y1 z1) (mkvec3 x2 y2 z2).

(** [glm::inverse] on [mat3]: cofactors times the reciprocal of the
    determinant.  No test of the determinant, and nothing is thrown. *)
Definition inverse (m : mat3) : mat3 :=
  let m00 := x (col0 m) in let m01 := y (col0 m) in let m02 := z (col0 m) in
  let m10 := x (col1 m) in let m11 := y (col1 m) in let m12 := z (col1 m) in
  let m20 := x (col2 m) in let m21 := y (col2 m) in let m22 := z (col2 m) in
  let OneOverDeterminant :=
    (F32.one / (m00 * (m11 * m22 - m21 * m12)
                - m10 * (m01 * m22 - m21 * m02)
                + m20 * (m01 * m12 - m11 * m02)))%F in
  mkmat3
    (mkvec3 ((m11 * m22 - m21 * m12) * OneOverDeterminant)%F
            ((- (m01 * m22 - m21 * m02)) * OneOverDeterminant)%F
            ((m01 * m12 - m11 * m02) * OneOverDeterminant)%F)
    (mkvec3 ((- (m10 * m22 - m20 * m12)) * OneOverDeterminant)%F
            ((m00 * m22 - m20 * m02) * OneOverDeterminant)%F
            ((- (m00 * m12 - m10 * m02)) * OneOverDeterminant)%F)
    (mkvec3 ((m10 * m21 - m20 * m11) * OneOverDeterminant)%F
            ((- (m00 * m21 - m20 * m01)) * OneOverDeterminant)%F
            ((m00 * m11 - m10 * m01) * OneOverDeterminant)%F).

(** [mat3 * vec3]. *)
Definition mulv (m : mat3) (v : vec3) : vec3 :=
  mkvec3
    (x (col0 m) * x v + x (col1 m) * y v + x (col2 m) * z v)%F
    (y (col0 m) * x v + y (col1 m) * y v + y (col2 m) * z v)%F
    (z (col0 m) * x v + z (col1 m) * y v + z (col2 m) * z v)%F.

End glm.

(** ** Data model *)

(** The header partition.h, which declares the types of the program, is
    not among the sources.  The records below follow section 3 of the
    specification and the fields and constructors partition.cpp uses. *)

(** Modelled from the spec: [Plane], declared in partition.h, which is not
    among the sources: the coefficients of a x + b y + c z + d = 0. *)
Record Plane : Type := mkPlane { a : float; b : float; c : float; d : float }.

(** Modelled from the spec: [Vertex], declared in partition.h, which is
    not among the sources: a position and the indices ([int]) of the planes
    the vertex lies on; [Vertex(x, y, z)] leaves the indices empty. *)
Record Vertex : Type :=
  mkVertex { vx : float; vy : float; vz : float; associatedPlanes : list Z }.

Definition Vertex_xyz (x y z : float) : Vertex := mkVertex x y z [].

(** Modelled from the spec: [ContourPlane], declared in partition.h, which
    is not among the sources: a plane with the outline of its polygon. *)
Record ContourPlane : Type :=
  mkContourPlane { plane : Plane; numVertices : Z; vertices : list Vertex }.

(** Modelled from the spec: [PlaneGroup], declared in partition.h, which is
    not among the sources: a representative normal and the planes
    classified into the group, in order of arrival. *)
Record PlaneGroup : Type :=
  mkPlaneGroup { normal : glm.vec3; planes : list ContourPlane }.

(** Modelled from the spec: [BoundingBox], declared in partition.h, which
    is not among the sources: the two corners of an axis-aligned box. *)
Record BoundingBox : Type := mkBoundingBox { bmin : glm.vec3; bmax : glm.vec3 }.

(** Modelled from the spec: [Edge], declared in partition.h, which is not
    among the sources: a pair of indices ([int]) into the vertex list of
    the cell. *)
Record Edge : Type := mkEdge { vertexIndex1 : Z; vertexIndex2 : Z }.

(** Modelled from the spec: [ConvexCell], declared in partition.h, which is
    not among the sources: vertices, edges over local indices, and the
    bounding planes. *)
Record ConvexCell : Type :=
  mkConvexCell
    { cell_vertices : list Vertex;
      cell_edges : list Edge;
      boundaryPlanes : list Plane }.

(** Modelled from the spec: the data members of [SpacePartitioner],
    declared in partition.h, which is not among the sources: those that
    partition.cpp reads and writes.  [diagnostics] stands for what has been
    written to [std::cerr]: the three indices of each reported triple. *)
Record SpacePartitioner : Type :=
  mkSpacePartitioner
    { originalPlanes : list ContourPlane;
      parallelGroups : list PlaneGroup;
      nonParallelPlanes : list ContourPlane;
      cells : list ConvexCell;
      diagnostics : list (nat * nat * nat) }.

Definition normal_of (p : Plane) : glm.vec3 := glm.mkvec3 (a p) (b p) (c p).
Definition position (v : Vertex) : glm.vec3 := glm.mkvec3 (vx v) (vy v) (vz v).

(** ** Control structure *)

(** [for (i = lo; i < hi; ++i) body]: the body runs for [lo], ..., [hi-1]
    in turn, each run starting from the state the previous one left. *)
Definition for_range {S : Type} (lo hi : nat) (body : nat -> S -> S) (s : S) : S :=
  fold_left (fun acc i => body i acc) (seq lo (hi - lo)) s.

(** A range-based [for] over a vector. *)
Definition for_each {A S : Type} (l : list A) (body : A -> S -> S) (s : S) : S :=
  fold_left (fun acc e => body e acc) l s.

(** The result of a [try] block: a value, or an exception caught by
    [catch (...)]. *)
Inductive outcome (A : Type) : Type :=
| Returned (v : A)
| Thrown.
Arguments Thrown {A}.

(** The conversion [(int) i] of a [size_t]: the low 32 bits, read as a
    signed number. *)
Definition int_of_size_t (i : nat) : Z :=
  (Z.of_nat i + 2147483648) mod 4294967296 - 2147483648.

(** ** [std::sort] and [std::set_intersection] *)

Section Algorithms.
Variable A : Type.
Variable lt : A -> A -> bool.

(** [std::sort] leaves the order of equivalent elements unspecified.  It
    is modelled by the insertion sort that libstdc++ runs on ranges of at
    most sixteen elements: each element in turn is placed in the sorted
    prefix, after the elements it is not less than. *)
Fixpoint sort_insert (e : A) (sorted : list A) : list A :=
  match sorted with
  | [] => [e]
  | h :: t => if lt e h then e :: sorted else h :: sort_insert e t
  end.

Definition std_sort (l : list A) : list A :=
  fold_left (fun sorted e => sort_insert e sorted) l [].

(** [std::set_intersection] on two ranges, with [back_inserter]:
    advance in the range whose front is smaller, copy the front of the
    first range when neither is smaller. *)
Fixpoint set_intersection (l1 l2 : list A) : list A :=
  let fix go (l2 : list A) : list A :=
    match l1, l2 with
    | [], _ | _, [] => []
    | h1 :: t1, h2 :: t2 =>
        if lt h1 h2 then set_intersection t1 l2
        else if lt h2 h1 then go t2
        else h1 :: set_intersection t1 t2
    end
  in go l2.
End Algorithms.

(** ** The member functions of [SpacePartitioner] *)

(** [arePlanesParallel] (partition.cpp, lines 10-18). *)
Definition arePlanesParallel (p1 p2 : Plane) : bool :=
  let n1 := normal_of p1 in
  let n2 := normal_of p2 in
  glm.all (glm.epsilonEqual
             (glm.abs (glm.normalize n1))
             (glm.abs (glm.normalize n2))
             F32.tolerance).

(** [group.planes[0]]: every group the program builds has a first plane;
    on a group without one the access is undefined, and the test below is
    taken to fail. *)
Definition parallel_to_front (p : Plane) (group : PlaneGroup) : bool :=
  match planes group with
  | front :: _ => arePlanesParallel p (plane front)
  | [] => false
  end.

(** The inner loop of [classifyPlanes] (lines 23-29): the plane joins the
    first group whose front plane it is parallel to.  [None] stands for
    [foundGroup == false]. *)
Fixpoint joinGroup (contourPlane : ContourPlane) (groups : list PlaneGroup)
  : option (list PlaneGroup) :=
  match groups with
  | [] => None
  | group :: rest =>
      if parallel_to_front (plane contourPlane) group
      then Some (mkPlaneGroup (normal group) (planes group ++ [contourPlane]) :: rest)
      else option_map (cons group) (joinGroup contourPlane rest)
  end.

Definition classifyPlane (contourPlane : ContourPlane) (groups : list PlaneGroup)
  : list PlaneGroup :=
  match joinGroup contourPlane groups with
  | Some groups' => groups'
  | None =>
      groups ++ [mkPlaneGroup (normal_of (plane contourPlane)) [contourPlane]]
  end.

(** [classifyPlanes] (lines 20-42). *)
Definition classifyPlanes (s : SpacePartitioner) : SpacePartitioner :=
  mkSpacePartitioner
    (originalPlanes s)
    (for_each (originalPlanes s) classifyPlane (parallelGroups s))
    (nonParallelPlanes s) (cells s) (diagnostics s).

(** [computePlaneIntersection] (lines 44-53).  The nine scalars fill the
    matrix column by column, so each plane's normal is a column of [A]. *)
Definition computePlaneIntersection (p1 p2 p3 : Plane) : glm.vec3 :=
  let A := glm.mat3_of_scalars (a p1) (b p1) (c p1)
                               (a p2) (b p2) (c p2)
                               (a p3) (b p3) (c p3) in
  let b := glm.mkvec3 (- d p1)%F (- d p2)%F (- d p3)%F in
  glm.mulv (glm.inverse A) b.

(** [computeDistance] (lines 212-214). *)
Definition computeDistance (pl : Plane) (point : glm.vec3) : float :=
  (a pl * glm.x point + b pl * glm.y point + c pl * glm.z point + d pl)%F.

(** [createSlabCell] (lines 97-135). *)
Definition slabVertex (bottom top : Plane) (i : Z) : Vertex :=
  let size := F32.hundred in
  let normal := normal_of bottom in
  let tangent := glm.cross normal (glm.mkvec3 F32.zero F32.one F32.zero) in
  let bitangent := glm.cross normal tangent in
  let pos :=
    glm.vadd
      (glm.vadd
         (glm.scale (if Z.land i 1 =? 0 then glm.vneg tangent else tangent) size)
         (glm.scale (if Z.land i 2 =? 0 then glm.vneg bitangent else bitangent) size))
      (glm.scale normal (if Z.land i 4 =? 0 then d top else d bottom)) in
  Vertex_xyz (glm.x pos) (glm.y pos) (glm.z pos).

Definition slabEdges (i : Z) : list Edge :=
  [ mkEdge i ((i + 1) mod 4);
    mkEdge (i + 4) ((i + 1) mod 4 + 4);
    mkEdge i (i + 4) ].

Definition slabCell (bottom top : Plane) : ConvexCell :=
  let vertices :=
    for_range 0 8 (fun i vs => vs ++ [slabVertex bottom top (Z.of_nat i)]) [] in
  let edges :=
    for_range 0 4 (fun i es => es ++ slabEdges (Z.of_nat i)) [] in
  mkConvexCell vertices edges [bottom; top].

Definition push_cell (cell : ConvexCell) (s : SpacePartitioner) : SpacePartitioner :=
  mkSpacePartitioner
    (originalPlanes s) (parallelGroups s) (nonParallelPlanes s)
    (cells s ++ [cell]) (diagnostics s).

Definition createSlabCell (bottom top : Plane) (s : SpacePartitioner)
  : SpacePartitioner :=
  push_cell (slabCell bottom top) s.

(** [computeParallelPlaneCells] (lines 79-95).  [sortedPlanes[i]] is read
    only for [i + 1 < size], so the default of [nth] is never returned. *)
Definition no_plane : Plane := mkPlane F32.zero F32.zero F32.zero F32.zero.
Definition no_contour : ContourPlane := mkContourPlane no_plane 0 [].

Definition sortedPlanes (group : PlaneGroup) : list ContourPlane :=
  std_sort (fun a b => d (plane a) <? d (plane b))%F (planes group).

Definition slabsOfGroup (group : PlaneGroup) (s : SpacePartitioner)
  : SpacePartitioner :=
  if (length (planes group) <? 2)%nat then s
  else
    let sorted := sortedPlanes group in
    for_range 0 (length sorted - 1)
      (fun i => createSlabCell (plane (nth i sorted no_contour))
                               (plane (nth (i + 1) sorted no_contour)))
      s.

Definition computeParallelPlaneCells (s : SpacePartitioner) : SpacePartitioner :=
  for_each (parallelGroups s) slabsOfGroup s.

(** The first loop of [computeNonParallelPlaneCells] (lines 139-150):
    [isNonParallel] stays true when the plane is parallel to the front
    plane of no group. *)
Definition isNonParallel (groups : list PlaneGroup) (cp : ContourPlane) : bool :=
  negb (existsb (parallel_to_front (plane cp)) groups).

Definition collectNonParallel (s : SpacePartitioner) : SpacePartitioner :=
  mkSpacePartitioner
    (originalPlanes s) (parallelGroups s)
    (for_each (originalPlanes s)
       (fun cp acc => if isNonParallel (parallelGroups s) cp then acc ++ [cp] else acc)
       (nonParallelPlanes s))
    (cells s) (diagnostics s).

(** The validity test of a candidate point (lines 178-184): no plane of the
    whole list is at a distance above the tolerance. *)
Definition isValid (planes : list ContourPlane) (intersection : glm.vec3) : bool :=
  forallb (fun cp => negb (computeDistance (plane cp) intersection >? F32.tolerance)%F)
          planes.

(** The [try] block of [findIntersectionVertices] (lines 173-191).  Neither
    [glm::inverse] nor the arithmetic throws, so the block always
    returns. *)
Definition tryIntersection (planes : list ContourPlane) (i j k : nat)
  : outcome (option Vertex) :=
  let intersection :=
    computePlaneIntersection (plane (nth i planes no_contour))
                             (plane (nth j planes no_contour))
                             (plane (nth k planes no_contour)) in
  if isValid planes intersection
  then Returned
         (Some (mkVertex (glm.x intersection) (glm.y intersection)
                         (glm.z intersection)
                         [int_of_size_t i; int_of_size_t j; int_of_size_t k]))
  else Returned None.

(** The state of the triple loop: the vertices accepted so far and the
    triples reported on [std::cerr]. *)
Definition solver_state : Type := (list Vertex * list (nat * nat * nat))%type.

Definition tripleBody (planes : list ContourPlane) (i j k : nat)
                      (st : solver_state) : solver_state :=
  let pi := plane (nth i planes no_contour) in
  let pj := plane (nth j planes no_contour) in
  let pk := plane (nth k planes no_contour) in
  if arePlanesParallel pi pj || arePlanesParallel pj pk || arePlanesParallel pi pk
  then st
  else
    match tryIntersection planes i j k with
    | Returned (Some v) => (fst st ++ [v], snd st)
    | Returned None => st
    | Thrown => (fst st, snd st ++ [(i, j, k)])
    end.

(** The three nested loops (lines 163-200).  The only caller passes at
    least three planes.  The bounds [size - 2] and [size - 1] are unsigned;
    for fewer than two planes they wrap around, but then [k < size] fails
    at once for every [i] and [j], so no body runs, as with the truncated
    subtraction used here. *)
Definition intersectionLoop (planes : list ContourPlane) : solver_state :=
  let n := length planes in
  for_range 0 (n - 2) (fun i =>
    for_range (i + 1) (n - 1) (fun j =>
      for_range (j + 1) n (fun k => tripleBody planes i j k)))
    ([], []).

(** [createCellFromIntersection] (lines 216-253).  [cellVertices[i]] is
    read only for [i < size]. *)
Definition no_vertex : Vertex := Vertex_xyz F32.zero F32.zero F32.zero.

Definition sharedPlanes (v1 v2 : Vertex) : list Z :=
  set_intersection Z.ltb (associatedPlanes v1) (associatedPlanes v2).

Definition intersectionEdges (cellVertices : list Vertex) : list Edge :=
  let n := length cellVertices in
  for_range 0 n (fun i =>
    for_range (i + 1) n (fun j es =>
      if (2 <=? length (sharedPlanes (nth i cellVertices no_vertex)
                                     (nth j cellVertices no_vertex)))%nat
      then es ++ [mkEdge (int_of_size_t i) (int_of_size_t j)]
      else es))
    [].

Definition intersectionCell (cellVertices : list Vertex) (bps : list Plane)
  : ConvexCell :=
  mkConvexCell cellVertices (intersectionEdges cellVertices) bps.

Definition createCellFromIntersection (cellVertices : list Vertex)
    (bps : list Plane) (s : SpacePartitioner) : SpacePartitioner :=
  push_cell (intersectionCell cellVertices bps) s.

(** [findIntersectionVertices] (lines 159-210). *)
Definition log_diagnostics (ds : list (nat * nat * nat)) (s : SpacePartitioner)
  : SpacePartitioner :=
  mkSpacePartitioner
    (originalPlanes s) (parallelGroups s) (nonParallelPlanes s) (cells s)
    (diagnostics s ++ ds).

Definition findIntersectionVertices (planes : list ContourPlane)
    (s : SpacePartitioner) : SpacePartitioner :=
  let '(intersectionVertices, reported) := intersectionLoop planes in
  let s := log_diagnostics reported s in
  match intersectionVertices with
  | [] => s
  | _ :: _ =>
      createCellFromIntersection intersectionVertices (map plane planes) s
  end.

(** [computeNonParallelPlaneCells] (lines 137-156). *)
Definition computeNonParallelPlaneCells (s : SpacePartitioner) : SpacePartitioner :=
  let s := collectNonParallel s in
  if (length (nonParallelPlanes s) <? 3)%nat then s
  else findIntersectionVertices (nonParallelPlanes s) s.

(** [computeCells] (lines 55-59): the new state and the returned copy of
    [cells]. *)
Definition computeCells (s : SpacePartitioner)
  : SpacePartitioner * list ConvexCell :=
  let s := computeNonParallelPlaneCells (computeParallelPlaneCells s) in
  (s, cells s).

(** [computeTightBoundingBox] (lines 256-281). *)
Definition growBox (vertex : Vertex) (bbox : BoundingBox) : BoundingBox :=
  mkBoundingBox
    (glm.mkvec3 (F32.std_min (glm.x (bmin bbox)) (vx vertex))
                (F32.std_min (glm.y (bmin bbox)) (vy vertex))
                (F32.std_min (glm.z (bmin bbox)) (vz vertex)))
    (glm.mkvec3 (F32.std_max (glm.x (bmax bbox)) (vx vertex))
                (F32.std_max (glm.y (bmax bbox)) (vy vertex))
                (F32.std_max (glm.z (bmax bbox)) (vz vertex))).

Definition expandBox (bbox : BoundingBox) : BoundingBox :=
  let center := glm.scale (glm.vadd (bmax bbox) (bmin bbox)) F32.half in
  let extent := glm.vsub (bmax bbox) center in
  mkBoundingBox (glm.vsub center (glm.scale extent F32.two))
                (glm.vadd center (glm.scale extent F32.two)).

Definition computeTightBoundingBox (s : SpacePartitioner) : BoundingBox :=
  let bbox := mkBoundingBox (glm.splat F32.FLT_MAX) (glm.splat (- F32.FLT_MAX)%F) in
  let bbox :=
    for_each (originalPlanes s)
      (fun contourPlane => for_each (vertices contourPlane) growBox) bbox in
  expandBox bbox.

(** [addBoundingBoxPlanes] (lines 283-335). *)
Definition boxPlane (bbox : BoundingBox) (i : nat) : Plane :=
  let mn := bmin bbox in
  let mx := bmax bbox in
  match i with
  | 0%nat => mkPlane F32.one F32.zero F32.zero (- glm.x mn)%F
  | 1%nat => mkPlane (- F32.one)%F F32.zero F32.zero (glm.x mx)
  | 2%nat => mkPlane F32.zero F32.one F32.zero (- glm.y mn)%F
  | 3%nat => mkPlane F32.zero (- F32.one)%F F32.zero (glm.y mx)
  | 4%nat => mkPlane F32.zero F32.zero F32.one (- glm.z mn)%F
  | _ => mkPlane F32.zero F32.zero (- F32.one)%F (glm.z mx)
  end.

Definition boxVertices (bbox : BoundingBox) (i : nat) : list Vertex :=
  let mn := bmin bbox in
  let mx := bmax bbox in
  if (i <? 2)%nat then
    let x := if (i =? 0)%nat then glm.x mn else glm.x mx in
    [ Vertex_xyz x (glm.y mn) (glm.z mn);
      Vertex_xyz x (glm.y mx) (glm.z mn);
      Vertex_xyz x (glm.y mx) (glm.z mx);
      Vertex_xyz x (glm.y mn) (glm.z mx) ]
  else if (i <? 4)%nat then
    let y := if (i =? 2)%nat then glm.y mn else glm.y mx in
    [ Vertex_xyz (glm.x mn) y (glm.z mn);
      Vertex_xyz (glm.x mx) y (glm.z mn);
      Vertex_xyz (glm.x mx) y (glm.z mx);
      Vertex_xyz (glm.x mn) y (glm.z mx) ]
  else
    let z := if (i =? 4)%nat then glm.z mn else glm.z mx in
    [ Vertex_xyz (glm.x mn) (glm.y mn) z;
      Vertex_xyz (glm.x mx) (glm.y mn) z;
      Vertex_xyz (glm.x mx) (glm.y mx) z;
      Vertex_xyz (glm.x mn) (glm.y mx) z ].

Definition boxContour (bbox : BoundingBox) (i : nat) : ContourPlane :=
  mkContourPlane (boxPlane bbox i) 4 (boxVertices bbox i).

Definition addBoundingBoxPlanes (bbox : BoundingBox) (s : SpacePartitioner)
  : SpacePartitioner :=
  for_range 0 6
    (fun i s =>
       mkSpacePartitioner
         (originalPlanes s ++ [boxContour bbox i])
         (parallelGroups s) (nonParallelPlanes s) (cells s) (diagnostics s))
    s.

(** The constructor (lines 3-8). *)
Definition construct (contourPlanes : list ContourPlane) : SpacePartitioner :=
  let s := mkSpacePartitioner contourPlanes [] [] [] [] in
  let bbox := computeTightBoundingBox s in
  classifyPlanes (addBoundingBoxPlanes bbox s).

(** The whole pipeline on an input: construct, then [computeCells]. *)
Definition pipeline (contourPlanes : list ContourPlane) : list ConvexCell :=
  snd (computeCells (construct contourPlanes)).

(** ** Rendering *)

(** The OpenGL calls [renderCells] issues, in order. *)
Inductive GLcall : Type :=
| glPolygonMode_FRONT_AND_BACK_LINE
| glBegin_LINES
| glColor3f (r g b : float)
| glVertex3f (x y z : float)
| glEnd.

(** [cell.vertices[index]] with an [int] index: the index is converted to
    [size_t], so a negative one becomes huge; outside the vector the access
    is undefined, which [None] stands for. *)
Definition vertexAt (cell : ConvexCell) (index : Z) : option Vertex :=
  if (0 <=? index) && (index <? Z.of_nat (length (cell_vertices cell)))
  then nth_error (cell_vertices cell) (Z.to_nat index)
  else None.

(** The body of the edge loop (lines 66-73). *)
Definition renderEdge (cell : ConvexCell) (edge : Edge) : option (list GLcall) :=
  match vertexAt cell (vertexIndex1 edge), vertexAt cell (vertexIndex2 edge) with
  | Some v1, Some v2 =>
      Some [ glColor3f F32.zero F32.one F32.zero;
             glVertex3f (vx v1) (vy v1) (vz v1);
             glVertex3f (vx v2) (vy v2) (vz v2) ]
  | _, _ => None
  end.

(** A loop whose body may hit undefined behaviour: the calls issued so far
    are kept as long as every body so far was defined. *)
Definition for_each_call {A : Type} (l : list A) (body : A -> option (list GLcall))
    (issued : option (list GLcall)) : option (list GLcall) :=
  for_each l
    (fun e acc =>
       match acc, body e with
       | Some calls, Some more => Some (calls ++ more)
       | _, _ => None
       end)
    issued.

Definition renderCell (cell : ConvexCell) : option (list GLcall) :=
  match for_each_call (cell_edges cell) (renderEdge cell) (Some [glBegin_LINES]) with
  | Some calls => Some (calls ++ [glEnd])
  | None => None
  end.

(** [renderCells] (lines 61-76).  The object is not modified; the result is
    the sequence of OpenGL calls. *)
Definition renderCells (s : SpacePartitioner) : option (list GLcall) :=
  for_each_call (cells s) renderCell (Some [glPolygonMode_FRONT_AND_BACK_LINE]).

(** * Notions used in the statements *)

(** ** Groups *)

(** The front plane of a group, [group.planes[0]], when there is one. *)
Definition front_of (g : PlaneGroup) : option ContourPlane := hd_error (planes g).

Definition parallel_to (p : Plane) (front : option ContourPlane) : bool :=
  match front with
  | Some f => arePlanesParallel p (plane f)
  | None => false
  end.

Definition memberOfGroup (cp : ContourPlane) (groups : list PlaneGroup) : Prop :=
  exists g, In g groups /\ In cp (planes g).

(** The invariant of a group: each member is parallel to the front
    plane. *)
Definition membersParallelToFront (g : PlaneGroup) : Prop :=
  forall cp, In cp (planes g) -> parallel_to_front (plane cp) g = true.

(** A plane that [arePlanesParallel] relates to itself: the components of
    its normalised normal are all finite. *)
Definition selfParallel (p : Plane) : bool := arePlanesParallel p p.

(** The normal is not the zero vector. *)
Definition nonzeroNormal (p : Plane) : bool :=
  negb (SFeqb (a p) F32.zero && SFeqb (b p) F32.zero && SFeqb (c p) F32.zero).

(** The plane with its four coefficients negated. *)
Definition negatePlane (p : Plane) : Plane :=
  mkPlane (- a p)%F (- b p)%F (- c p)%F (- d p)%F.

(** ** Slabs *)

Definition isSlabCell (cell : ConvexCell) : Prop :=
  exists bottom top, cell = slabCell bottom top.

(** The cells [slabsOfGroup] appends, in closed form. *)
Definition groupSlabs (group : PlaneGroup) : list ConvexCell :=
  if (length (planes group) <? 2)%nat then []
  else
    let sorted := sortedPlanes group in
    map (fun i => slabCell (plane (nth i sorted no_contour))
                           (plane (nth (i + 1) sorted no_contour)))
        (seq 0 (length sorted - 1)).



(** ** Intersection vertices and edges *)

(** What the triple loop records about a vertex it accepts from the planes
    of indices [i < j < k]. *)
Definition acceptedAt (planes : list ContourPlane) (i j k : nat) (v : Vertex) : Prop :=
  (i < j < k)%nat /\ (k < length planes)%nat /\
  associatedPlanes v = [int_of_size_t i; int_of_size_t j; int_of_size_t k] /\
  position v = computePlaneIntersection (plane (nth i planes no_contour))
                                        (plane (nth j planes no_contour))
                                        (plane (nth k planes no_contour)) /\
  isValid planes (position v) = true.

Definition accepted (planes : list ContourPlane) (v : Vertex) : Prop :=
  exists i j k, acceptedAt planes i j k v.

(** What the edge loop records about an edge it emits. *)
Definition joins (cellVertices : list Vertex) (e : Edge) (i j : nat) : Prop :=
  (i < j)%nat /\ (j < length cellVertices)%nat /\
  e = mkEdge (int_of_size_t i) (int_of_size_t j) /\
  (2 <= length (sharedPlanes (nth i cellVertices no_vertex)
                             (nth j cellVertices no_vertex)))%nat.



(** ** The closure box *)








(** ** binary32 values *)

Definition isZero (x : float) : bool :=
  match x with S754_zero _ => true | _ => false end.

(** Equal, or both zeros (of any signs). *)
Definition sameValue (t x : float) : Prop :=
  t = x \/ (isZero t = true /\ isZero x = true).




(** * Concrete inputs *)

Definition newPartitioner : SpacePartitioner := mkSpacePartitioner [] [] [] [] [].

(** A plane without polygon. *)
Definition bare (p : Plane) : ContourPlane := mkContourPlane p 0 [].

(** The number 5, and 2^-100, a normal number whose square underflows to
    zero. *)
Definition five : float := S754_finite false 10485760 (-21).
Definition tiny : float := S754_finite false 8388608 (-123).

(** The box [-1,1]^3 and its six closure planes; the same six faces with
    their normals pointing outward, and the cell assembled from them. *)
Definition unitBox : BoundingBox :=
  mkBoundingBox (glm.mkvec3 (- F32.one)%F (- F32.one)%F (- F32.one)%F)
                (glm.mkvec3 F32.one F32.one F32.one).

Definition cubePlanes : list ContourPlane :=
  originalPlanes (addBoundingBoxPlanes unitBox newPartitioner).

Definition outwardCube : list ContourPlane :=
  map (fun cp => bare (negatePlane (plane cp))) cubePlanes.

Definition outwardCell : ConvexCell :=
  intersectionCell (fst (intersectionLoop outwardCube)) (map plane outwardCube).

(** Three planes through the z axis: x = 0, y = 0 and x + y = 0. *)
Definition zAxisPlanes : list ContourPlane :=
  [ bare (mkPlane F32.one F32.zero F32.zero F32.zero);
    bare (mkPlane F32.zero F32.one F32.zero F32.zero);
    bare (mkPlane F32.one F32.one F32.zero F32.zero) ].


(** Inputs of the whole pipeline.  Each plane carries the polygon
    [segment], from (-1/2,-1/2,-1/2) to (1/2,1/2,1/2), so the closure box
    is [-1,1]^3.  [tinyInput]: the coordinate planes with normals of length
    2^-100.  [tinyAxisInput]: the three planes through the z axis, scaled
    by 2^-100. *)
Definition segment : list Vertex :=
  [ Vertex_xyz (- F32.half)%F (- F32.half)%F (- F32.half)%F;
    Vertex_xyz F32.half F32.half F32.half ].

Definition tinyInput : list ContourPlane :=
  [ mkContourPlane (mkPlane tiny F32.zero F32.zero F32.zero) 2 segment;
    mkContourPlane (mkPlane F32.zero tiny F32.zero F32.zero) 2 segment;
    mkContourPlane (mkPlane F32.zero F32.zero tiny F32.zero) 2 segment ].

Definition tinyAxisInput : list ContourPlane :=
  [ mkContourPlane (mkPlane tiny F32.zero F32.zero F32.zero) 2 segment;
    mkContourPlane (mkPlane F32.zero tiny F32.zero F32.zero) 2 segment;
    mkContourPlane (mkPlane tiny tiny F32.zero F32.zero) 2 segment ].

Definition nanVertex : Vertex := mkVertex S754_nan S754_nan S754_nan [0; 1; 2].

(** One cutting plane, x + y = 0, parallel to no face of the box; its
    polygon gives the closure box [-2,2] x [-2,2] x [0,0]. *)
Definition tiltedPlane : ContourPlane :=
  mkContourPlane (mkPlane F32.one F32.one F32.zero F32.zero) 2
    [ Vertex_xyz (- F32.one)%F F32.one F32.zero;
      Vertex_xyz F32.one (- F32.one)%F F32.zero ].

Definition tiltedInput : list ContourPlane := [ tiltedPlane ].


Definition slabBottom : Plane := mkPlane F32.one F32.zero F32.zero F32.two.
Definition slabTop : Plane := mkPlane (- F32.one)%F F32.zero F32.zero F32.two.


(** The number of edges of a cell that end at vertex [i]. *)
Definition degree (cell : ConvexCell) (i : Z) : nat :=
  length (filter (fun e => (vertexIndex1 e =? i) || (vertexIndex2 e =? i))
                 (cell_edges cell)).

(** * Further notions *)

(** Two planes that ended up in the same group. *)
Definition togetherInGroup (p q : ContourPlane) (groups : list PlaneGroup) : Prop :=
  exists g, In g groups /\ In p (planes g) /\ In q (planes g).

(** A group as [classifyPlanes] builds it: it has a front plane, and its
    [normal] is the normal of that plane. *)
Definition wellBuiltGroup (g : PlaneGroup) : Prop :=
  exists front rest,
    planes g = front :: rest /\ normal g = normal_of (plane front).

(** The box after the scan of the vertices and before the expansion (lines
    257-272 of [computeTightBoundingBox]). *)
Definition tightBox (s : SpacePartitioner) : BoundingBox :=
  for_each (originalPlanes s)
    (fun contourPlane => for_each (vertices contourPlane) growBox)
    (mkBoundingBox (glm.splat F32.FLT_MAX) (glm.splat (- F32.FLT_MAX)%F)).

(** The box [computeTightBoundingBox] returns when there is no vertex at
    all: its corners are (+inf,+inf,+inf) and (-inf,-inf,-inf). *)
Definition invertedBox : BoundingBox :=
  mkBoundingBox (glm.splat (S754_infinity false)) (glm.splat (S754_infinity true)).

(** The determinant [glm::inverse] divides by. *)
Definition determinant (m : glm.mat3) : float :=
  let m00 := glm.x (glm.col0 m) in let m01 := glm.y (glm.col0 m) in
  let m02 := glm.z (glm.col0 m) in
  let m10 := glm.x (glm.col1 m) in let m11 := glm.y (glm.col1 m) in
  let m12 := glm.z (glm.col1 m) in
  let m20 := glm.x (glm.col2 m) in let m21 := glm.y (glm.col2 m) in
  let m22 := glm.z (glm.col2 m) in
  (m00 * (m11 * m22 - m21 * m12)
   - m10 * (m01 * m22 - m21 * m02)
   + m20 * (m01 * m12 - m11 * m02))%F.

(** The matrix [computePlaneIntersection] builds from three planes. *)
Definition coefficientMatrix (p1 p2 p3 : Plane) : glm.mat3 :=
  glm.mat3_of_scalars (a p1) (b p1) (c p1)
                      (a p2) (b p2) (c p2)
                      (a p3) (b p3) (c p3).

Definition hasNaN (point : glm.vec3) : bool :=
  F32.is_nan (glm.x point) || F32.is_nan (glm.y point) || F32.is_nan (glm.z point).

(** The number of [glVertex3f] calls in a sequence of calls. *)
Definition vertexCalls (calls : list GLcall) : nat :=
  length (filter (fun call => match call with glVertex3f _ _ _ => true | _ => false end)
                 calls).

Definition edgeCount (cs : list ConvexCell) : nat :=
  length (flat_map cell_edges cs).

(** The vertex the solver builds for the planes of indices [i], [j], [k],
    and the condition under which it is accepted. *)
Definition candidate (planes : list ContourPlane) (i j k : nat) : Vertex :=
  let point :=
    computePlaneIntersection (plane (nth i planes no_contour))
                             (plane (nth j planes no_contour))
                             (plane (nth k planes no_contour)) in
  mkVertex (glm.x point) (glm.y point) (glm.z point)
           [int_of_size_t i; int_of_size_t j; int_of_size_t k].

Definition pairwiseNonParallel (planes : list ContourPlane) (i j k : nat) : bool :=
  let pi := plane (nth i planes no_contour) in
  let pj := plane (nth j planes no_contour) in
  let pk := plane (nth k planes no_contour) in
  negb (arePlanesParallel pi pj || arePlanesParallel pj pk || arePlanesParallel pi pk).

(** What the non-parallel phase adds to [cells] for a collected list of
    planes (lines 152-155 and 202-209): nothing below three planes or
    without an accepted vertex, and one cell otherwise. *)
Definition intersectionCells (collected : list ContourPlane) : list ConvexCell :=
  if (length collected <? 3)%nat then []
  else match fst (intersectionLoop collected) with
       | [] => []
       | v :: vs => [intersectionCell (v :: vs) (map plane collected)]
       end.

(** The input planes that are not parallel to themselves. *)
Definition notSelfParallel (input : list ContourPlane) : list ContourPlane :=
  filter (fun cp => negb (selfParallel (plane cp))) input.

(** Both indices of every edge address a vertex of the cell. *)
Definition indexInRange (cell : ConvexCell) (index : Z) : Prop :=
  0 <= index < Z.of_nat (length (cell_vertices cell)).

Definition edgesInRange (cell : ConvexCell) : Prop :=
  Forall (fun e => indexInRange cell (vertexIndex1 e) /\
                   indexInRange cell (vertexIndex2 e))
         (cell_edges cell).

(** A degenerate plane: all three components of the normal are zeros (of
    either sign). *)
Definition zeroNormal (p : Plane) : bool :=
  isZero (a p) && isZero (b p) && isZero (c p).

(** The degenerate plane 0 x + 0 y + 0 z + 1 = 0, without polygon. *)
Definition zeroPlane : ContourPlane :=
  bare (mkPlane F32.zero F32.zero F32.zero F32.one).

(** A vertex on the Y axis: its x and z coordinates are zeros. *)
Definition onYAxis (v : Vertex) : bool := isZero (vx v) && isZero (vz v).

(** The calls [renderCells] issues for one edge and for one cell whose
    edge indices are in range. *)
Definition edgeCalls (cell : ConvexCell) (edge : Edge) : list GLcall :=
  let v1 := nth (Z.to_nat (vertexIndex1 edge)) (cell_vertices cell) no_vertex in
  let v2 := nth (Z.to_nat (vertexIndex2 edge)) (cell_vertices cell) no_vertex in
  [ glColor3f F32.zero F32.one F32.zero;
    glVertex3f (vx v1) (vy v1) (vz v1);
    glVertex3f (vx v2) (vy v2) (vz v2) ].

Definition cellCalls (cell : ConvexCell) : list GLcall :=
  [glBegin_LINES] ++ flat_map (edgeCalls cell) (cell_edges cell) ++ [glEnd].

(** No cell has more vertices than an [int] index can address. *)
Definition addressable (cell : ConvexCell) : Prop :=
  Z.of_nat (length (cell_vertices cell)) <= 2147483648.

(** No corner coordinate of the box is NaN. *)
Definition cornersNotNaN (bbox : BoundingBox) : bool :=
  negb (hasNaN (bmin bbox)) && negb (hasNaN (bmax bbox)).

(** [lo <= t <= hi] by the comparisons of the program, asked only of a
    [t] that is a number. *)
Definition between (lo t hi : float) : Prop :=
  F32.is_nan t = false -> F32.leb lo t = true /\ F32.leb t hi = true.

(** The box contains the vertex, coordinate by coordinate; a NaN
    coordinate of the vertex is not constrained. *)
Definition boxAround (bbox : BoundingBox) (v : Vertex) : Prop :=
  between (glm.x (bmin bbox)) (vx v) (glm.x (bmax bbox)) /\
  between (glm.y (bmin bbox)) (vy v) (glm.y (bmax bbox)) /\
  between (glm.z (bmin bbox)) (vz v) (glm.z (bmax bbox)).

(** What the body of the triple loop appends for the planes of indices
    [i], [j], [k]: the candidate vertex when the three planes are pairwise
    non-parallel and the point passes the validity test. *)
Definition tripleVertices (planes : list ContourPlane) (i j k : nat) : list Vertex :=
  if pairwiseNonParallel planes i j k
     && isValid planes (position (candidate planes i j k))
  then [candidate planes i j k]
  else [].

(** What the body of the edge loop appends for the vertices of indices
    [i] and [j]. *)
Definition pairEdges (cellVertices : list Vertex) (i j : nat) : list Edge :=
  if (2 <=? length (sharedPlanes (nth i cellVertices no_vertex)
                                 (nth j cellVertices no_vertex)))%nat
  then [mkEdge (int_of_size_t i) (int_of_size_t j)]
  else [].

(** A group in which every plane that joined is parallel to the front
    plane, and both are parallel to themselves. *)
Definition groupCoherent (g : PlaneGroup) : Prop :=
  exists front rest,
    planes g = front :: rest /\
    Forall (fun q => arePlanesParallel (plane q) (plane front) = true /\
                     selfParallel (plane q) = true /\
                     selfParallel (plane front) = true)
           rest.

(** The front planes of two groups are not parallel, in either order of
    the arguments. *)
Definition frontsApart (g h : PlaneGroup) : Prop :=
  exists p q,
    front_of g = Some p /\ front_of h = Some q /\
    arePlanesParallel (plane q) (plane p) = false /\
    arePlanesParallel (plane p) (plane q) = false.

Unset Implicit Arguments.

(** * Properties *)

Tactic Notation "record_fields" :=
  cbn [originalPlanes parallelGroups nonParallelPlanes cells diagnostics
       cell_vertices cell_edges boundaryPlanes fst snd].

Tactic Notation "record_fields" "in" hyp(H) :=
  cbn [originalPlanes parallelGroups nonParallelPlanes cells diagnostics
       cell_vertices cell_edges boundaryPlanes fst snd] in H.

(** ** Literals *)

(** The constants of the model are the binary32 numbers the literals of
    the program denote. *)
Lemma literals_exact :
  F32.one = F32.of_Z 1 /\ F32.two = F32.of_Z 2 /\
  F32.hundred = F32.of_Z 100 /\ F32.half = F32.of_dyadic 1 (-1) /\
  F32.tolerance = (F32.of_Z 1 / F32.of_Z 10000)%F /\
  F32.FLT_MAX = SFmax_float F32.prec F32.emax /\
  five = F32.of_Z 5 /\ tiny = F32.of_dyadic 1 (-100).
Proof. vm_compute. repeat split. Qed.

(** ** Loops *)

Section Loops.
Context {S : Type}.

Lemma for_each_inv {A : Type} (P : S -> Prop) (l : list A) (body : A -> S -> S) :
  (forall e s, In e l -> P s -> P (body e s)) ->
  forall s, P s -> P (for_each l body s).
Proof.
  unfold for_each. induction l as [|e l IH]; intros Hbody s Hs; simpl.
  - exact Hs.
  - apply IH.
    + intros e' s' Hin. apply Hbody. now right.
    + apply Hbody; [now left | exact Hs].
Qed.

Lemma for_range_inv (P : S -> Prop) (lo hi : nat) (body : nat -> S -> S) :
  (forall i s, (lo <= i < hi)%nat -> P s -> P (body i s)) ->
  forall s, P s -> P (for_range lo hi body s).
Proof.
  intros Hbody s Hs. unfold for_range.
  apply (for_each_inv P (seq lo (hi - lo)) body); [|exact Hs].
  intros i s' Hin. apply Hbody. apply in_seq in Hin. lia.
Qed.
End Loops.

Lemma for_each_filter {A : Type} (keep : A -> bool) (l init : list A) :
  for_each l (fun e acc => if keep e then acc ++ [e] else acc) init
  = init ++ filter keep l.
Proof.
  unfold for_each. revert init.
  induction l as [|e l IH]; intro init; simpl.
  - now rewrite app_nil_r.
  - rewrite IH. destruct (keep e); [|reflexivity].
    now rewrite <- app_assoc.
Qed.

(** ** Order on binary32 numbers *)

Lemma SFcompare_antisym (x y : float) :
  SFcompare y x = option_map CompOpp (SFcompare x y).
Proof.
  destruct x as [sx|sx| |sx mx ex], y as [sy|sy| |sy my ey]; simpl;
    try reflexivity;
    try (destruct sx, sy; reflexivity);
    try (destruct sx; reflexivity);
    try (destruct sy; reflexivity).
  destruct sx, sy; simpl; try reflexivity;
    rewrite (Z.compare_antisym ex ey);
    destruct (ex ?= ey); simpl; try reflexivity;
    change (Pos.compare_cont Eq my mx) with (Pos.compare my mx);
    change (Pos.compare_cont Eq mx my) with (Pos.compare mx my);
    rewrite (Pos.compare_antisym mx my); try reflexivity.
Qed.


Lemma SFcompare_not_nan (x y : float) :
  F32.is_nan x = false -> F32.is_nan y = false ->
  exists cmp, SFcompare x y = Some cmp.
Proof.
  destruct x, y; simpl; intros; try discriminate; eauto.
Qed.

Lemma f32_not_ltb_leb (x y : float) :
  F32.is_nan x = false -> F32.is_nan y = false ->
  (y <? x)%F = false -> F32.leb x y = true.
Proof.
  unfold F32.ltb, F32.leb, SFltb, SFleb. rewrite (SFcompare_antisym x y).
  intros Hx Hy.
  destruct (SFcompare_not_nan x y Hx Hy) as [cmp ->].
  destruct cmp; simpl; congruence.
Qed.

Lemma f32_leb_trans (x y z : float) :
  F32.leb x y = true -> F32.leb y z = true -> F32.leb x z = true.
Proof.
  unfold F32.leb, SFleb.
  destruct x as [sx|sx| |sx mx ex], y as [sy|sy| |sy my ey], z as [sz|sz| |sz mz ez];
    simpl; try congruence;
    try (destruct sx; simpl; congruence);
    try (destruct sy; simpl; congruence);
    try (destruct sz; simpl; congruence);
    try (destruct sx, sy; simpl; congruence);
    try (destruct sy, sz; simpl; congruence);
    try (destruct sx, sz; simpl; congruence);
    try (destruct sx, sy, sz; simpl; congruence).
  change (Pos.compare_cont Eq mx my) with (Pos.compare mx my);
  change (Pos.compare_cont Eq my mz) with (Pos.compare my mz);
  change (Pos.compare_cont Eq mx mz) with (Pos.compare mx mz).
  destruct sx, sy, sz; simpl; try congruence;
  destruct (Z.compare_spec ex ey), (Z.compare_spec ey ez), (Z.compare_spec ex ez);
    try lia; try congruence; subst;
  destruct (Pos.compare_spec mx my), (Pos.compare_spec my mz), (Pos.compare_spec mx mz);
    simpl; try lia; try congruence.
Qed.

(** ** [std::sort] *)

Section SortFacts.
Variable A : Type.
Variable lt : A -> A -> bool.
Hypothesis lt_asym : forall x y, lt x y = true -> lt y x = false.


Lemma sort_insert_perm (e : A) (l : list A) :
  Permutation (sort_insert lt e l) (e :: l).
Proof.
  induction l as [|h t IH]; simpl.
  - apply Permutation_refl.
  - destruct (lt e h).
    + apply Permutation_refl.
    + eapply perm_trans; [apply perm_skip, IH | apply perm_swap].
Qed.

Lemma sort_fold_perm (l acc : list A) :
  Permutation (fold_left (fun sorted e => sort_insert lt e sorted) l acc)
              (acc ++ l).
Proof.
  revert acc. induction l as [|e l IH]; intro acc; simpl.
  - now rewrite app_nil_r.
  - eapply perm_trans; [apply IH|].
    eapply perm_trans; [apply Permutation_app_tail, sort_insert_perm|].
    simpl. apply Permutation_middle.
Qed.

Lemma std_sort_perm (l : list A) : Permutation (std_sort lt l) l.
Proof. apply (sort_fold_perm l []). Qed.

Lemma std_sort_length (l : list A) : length (std_sort lt l) = length l.
Proof. apply Permutation_length, std_sort_perm. Qed.



End SortFacts.

(** ** Values up to the sign of zero *)

Lemma sameValue_refl (x : float) : sameValue x x.
Proof. now left. Qed.



Lemma sameValue_add_zero_l (t x z : float) :
  isZero z = true -> sameValue t x -> sameValue (z + t)%F x.
Proof.
  intros Hz [->|[Ht Hx]]; destruct z as [sz| | |]; try discriminate.
  - destruct x as [s|s| |s m e]; try (now left).
    right. split; [|reflexivity]. now destruct s, sz.
  - destruct t as [st| | |], x as [sx| | |]; try discriminate.
    right. split; [|reflexivity]. now destruct st, sz.
Qed.

Lemma sameValue_facts (t x : float) :
  sameValue t x ->
  F32.is_finite t = F32.is_finite x /\ F32.valid t = F32.valid x /\
  forall y, SFcompare y t = SFcompare y x.
Proof.
  intros [->|[Ht Hx]]; [now repeat split|].
  destruct t, x; try discriminate.
  split; [reflexivity|]. split; [reflexivity|]. intro y. now destruct y.
Qed.

Lemma sameValue_ltb (t x e : float) :
  sameValue t x -> (t <? e)%F = (x <? e)%F.
Proof.
  intros [->|[Ht Hx]]; [reflexivity|].
  destruct t, x; try discriminate. reflexivity.
Qed.

Lemma sameValue_sub_l (t x y : float) :
  sameValue t x -> sameValue (t - y)%F (x - y)%F.
Proof.
  intros [->|[Ht Hx]]; [now left|].
  destruct t as [st| | |], x as [sx| | |]; try discriminate.
  destruct y as [sy|sy| |sy my ey]; try (now left).
  right. now destruct st, sx, sy.
Qed.

(** [glm::abs] and the absolute value differ on negative zero only. *)
Lemma abs1_sameValue (x : float) : sameValue (glm.abs1 x) (F32.abs x).
Proof.
  destruct x as [s|s| |s m e]; try (now left).
  - right. now split.
  - destruct s; now left.
  - destruct s; now left.
Qed.

Lemma abs1_neg (x : float) : sameValue (glm.abs1 (- x)%F) (glm.abs1 x).
Proof.
  destruct x as [s|s| |s m e]; try (now left).
  - right. now split.
  - destruct s; now left.
  - destruct s; now left.
Qed.

Lemma sameValue_abs1 (t x : float) :
  sameValue t x -> sameValue (glm.abs1 t) (glm.abs1 x).
Proof.
  intros [->|[Ht Hx]]; [now left|].
  destruct t, x; try discriminate. right. now split.
Qed.

(** ** The slab builder *)

Lemma push_cells_spec {A : Type} (f : A -> ConvexCell) (l : list A) (s : SpacePartitioner) :
  for_each l (fun e => push_cell (f e)) s
  = mkSpacePartitioner (originalPlanes s) (parallelGroups s)
      (nonParallelPlanes s) (cells s ++ map f l) (diagnostics s).
Proof.
  unfold for_each. revert s. induction l as [|e l IH]; intro s; simpl.
  - rewrite app_nil_r. now destruct s.
  - rewrite IH. simpl. now rewrite <- app_assoc.
Qed.

Lemma slabsOfGroup_spec (group : PlaneGroup) (s : SpacePartitioner) :
  slabsOfGroup group s
  = mkSpacePartitioner (originalPlanes s) (parallelGroups s)
      (nonParallelPlanes s) (cells s ++ groupSlabs group) (diagnostics s).
Proof.
  unfold slabsOfGroup, groupSlabs.
  destruct (length (planes group) <? 2)%nat.
  - rewrite app_nil_r. now destruct s.
  - unfold for_range, createSlabCell. rewrite Nat.sub_0_r.
    apply (push_cells_spec
             (fun i => slabCell (plane (nth i (sortedPlanes group) no_contour))
                                (plane (nth (i + 1) (sortedPlanes group) no_contour)))).
Qed.

Lemma slabs_of_groups_spec (groups : list PlaneGroup) (s : SpacePartitioner) :
  for_each groups slabsOfGroup s
  = mkSpacePartitioner (originalPlanes s) (parallelGroups s)
      (nonParallelPlanes s)
      (cells s ++ flat_map groupSlabs groups) (diagnostics s).
Proof.
  unfold for_each. revert s.
  induction groups as [|g groups IH]; intro s; simpl.
  - rewrite app_nil_r. now destruct s.
  - rewrite IH, slabsOfGroup_spec. simpl. now rewrite <- app_assoc.
Qed.

Lemma computeParallelPlaneCells_spec (s : SpacePartitioner) :
  computeParallelPlaneCells s
  = mkSpacePartitioner (originalPlanes s) (parallelGroups s)
      (nonParallelPlanes s)
      (cells s ++ flat_map groupSlabs (parallelGroups s)) (diagnostics s).
Proof. apply slabs_of_groups_spec. Qed.


Lemma groupSlabs_length (group : PlaneGroup) :
  length (groupSlabs group) = (length (planes group) - 1)%nat.
Proof.
  unfold groupSlabs.
  destruct (Nat.ltb_spec (length (planes group)) 2) as [Hlt|Hge]; simpl.
  - lia.
  - rewrite length_map, length_seq. unfold sortedPlanes.
    now rewrite std_sort_length.
Qed.

Lemma groupSlabs_all_slabs (group : PlaneGroup) :
  Forall isSlabCell (groupSlabs group).
Proof.
  unfold groupSlabs. destruct (length (planes group) <? 2)%nat; [constructor|].
  apply Forall_forall. intros cell Hin. apply in_map_iff in Hin.
  destruct Hin as [i [<- _]]. unfold isSlabCell. eauto.
Qed.






(** ** Classification into parallel groups *)

Lemma parallel_to_front_eq (p : Plane) (g : PlaneGroup) :
  parallel_to_front p g = parallel_to p (front_of g).
Proof. unfold parallel_to_front, front_of. now destruct (planes g). Qed.

Lemma existsb_fronts (p : Plane) (gs : list PlaneGroup) :
  existsb (parallel_to_front p) gs = existsb (parallel_to p) (map front_of gs).
Proof.
  induction gs as [|g gs IH]; simpl; [reflexivity|].
  now rewrite IH, parallel_to_front_eq.
Qed.

Lemma joinGroup_some (cp : ContourPlane) (gs gs' : list PlaneGroup) :
  joinGroup cp gs = Some gs' ->
  map front_of gs' = map front_of gs /\
  existsb (parallel_to_front (plane cp)) gs = true.
Proof.
  revert gs'. induction gs as [|g gs IH]; simpl; intros gs' H; [discriminate|].
  destruct (parallel_to_front (plane cp) g) eqn:Hp.
  - inversion H; subst; clear H. split; [|reflexivity]. simpl. f_equal.
    unfold front_of; simpl. unfold parallel_to_front in Hp.
    destruct (planes g); [discriminate | reflexivity].
  - destruct (joinGroup cp gs) as [r|]; [|discriminate].
    inversion H; subst; clear H. destruct (IH r eq_refl) as [IH1 IH2].
    simpl. now rewrite IH1, IH2.
Qed.

Lemma joinGroup_none (cp : ContourPlane) (gs : list PlaneGroup) :
  joinGroup cp gs = None -> existsb (parallel_to_front (plane cp)) gs = false.
Proof.
  induction gs as [|g gs IH]; simpl; intro H; [reflexivity|].
  destruct (parallel_to_front (plane cp) g); [discriminate|].
  destruct (joinGroup cp gs); [discriminate|]. now apply IH.
Qed.

(** Classifying a plane keeps the front plane of every group and adds at
    most one group, at the end, whose front is the plane itself. *)
Lemma classifyPlane_fronts (cp : ContourPlane) (gs : list PlaneGroup) :
  map front_of (classifyPlane cp gs) =
  map front_of gs ++
    (if existsb (parallel_to_front (plane cp)) gs then [] else [Some cp]).
Proof.
  unfold classifyPlane. destruct (joinGroup cp gs) as [gs'|] eqn:Hj.
  - destruct (joinGroup_some _ _ _ Hj) as [-> ->]. now rewrite app_nil_r.
  - rewrite (joinGroup_none _ _ Hj). now rewrite map_app.
Qed.

Lemma classifyPlane_has_front (cp : ContourPlane) (gs : list PlaneGroup) :
  selfParallel (plane cp) = true ->
  existsb (parallel_to_front (plane cp)) (classifyPlane cp gs) = true.
Proof.
  intro Hself. rewrite existsb_fronts, classifyPlane_fronts, existsb_app.
  rewrite <- existsb_fronts.
  destruct (existsb (parallel_to_front (plane cp)) gs); [reflexivity|].
  simpl. unfold selfParallel in Hself. now rewrite Hself.
Qed.

Lemma classifyPlane_keeps (p : Plane) (cp : ContourPlane) (gs : list PlaneGroup) :
  existsb (parallel_to_front p) gs = true ->
  existsb (parallel_to_front p) (classifyPlane cp gs) = true.
Proof.
  intro H. rewrite existsb_fronts, classifyPlane_fronts, existsb_app.
  rewrite <- existsb_fronts, H. reflexivity.
Qed.

Lemma classify_all_have_front (l : list ContourPlane) (gs : list PlaneGroup)
    (cp : ContourPlane) :
  In cp l -> selfParallel (plane cp) = true ->
  existsb (parallel_to_front (plane cp)) (for_each l classifyPlane gs) = true.
Proof.
  unfold for_each. revert gs.
  induction l as [|e l IH]; intros gs Hin Hself; [destruct Hin|].
  simpl. destruct Hin as [->|Hin].
  - apply (for_each_inv (fun g => existsb (parallel_to_front (plane cp)) g = true)).
    + intros e s _. apply classifyPlane_keeps.
    + now apply classifyPlane_has_front.
  - now apply IH.
Qed.

(** Every plane that is classified ends up in a group, and stays there. *)
Lemma joinGroup_members (cp : ContourPlane) (gs gs' : list PlaneGroup) :
  joinGroup cp gs = Some gs' ->
  memberOfGroup cp gs' /\
  forall q, memberOfGroup q gs -> memberOfGroup q gs'.
Proof.
  revert gs'. induction gs as [|g gs IH]; simpl; intros gs' H; [discriminate|].
  destruct (parallel_to_front (plane cp) g).
  - inversion H; subst; clear H. split.
    + eexists. split; [now left|]. simpl. apply in_or_app. right. now left.
    + intros q (g' & [<-|Hg'] & Hq).
      * eexists. split; [now left|]. simpl. apply in_or_app. now left.
      * exists g'. split; [now right | exact Hq].
  - destruct (joinGroup cp gs) as [r|]; [|discriminate].
    inversion H; subst; clear H. destruct (IH r eq_refl) as [(g' & Hg' & Hcp) Hmono].
    split.
    + exists g'. split; [now right | exact Hcp].
    + intros q (g'' & [<-|Hg''] & Hq).
      * exists g. split; [now left | exact Hq].
      * destruct (Hmono q) as (g3 & Hg3 & Hq3); [now exists g''|].
        exists g3. split; [now right | exact Hq3].
Qed.

Lemma classifyPlane_members (cp : ContourPlane) (gs : list PlaneGroup) :
  memberOfGroup cp (classifyPlane cp gs) /\
  forall q, memberOfGroup q gs -> memberOfGroup q (classifyPlane cp gs).
Proof.
  unfold classifyPlane. destruct (joinGroup cp gs) as [gs'|] eqn:Hj.
  - now apply joinGroup_members.
  - split.
    + eexists. split; [apply in_or_app; right; now left|]. now left.
    + intros q (g & Hg & Hq). exists g. split; [|exact Hq].
      apply in_or_app. now left.
Qed.

Lemma classify_all_members (l : list ContourPlane) (gs : list PlaneGroup)
    (cp : ContourPlane) :
  In cp l -> memberOfGroup cp (for_each l classifyPlane gs).
Proof.
  unfold for_each. revert gs.
  induction l as [|e l IH]; intros gs Hin; [destruct Hin|].
  simpl. destruct Hin as [->|Hin]; [|now apply IH].
  apply (for_each_inv (memberOfGroup cp)).
  - intros e s _. exact (proj2 (classifyPlane_members e s) cp).
  - exact (proj1 (classifyPlane_members cp gs)).
Qed.

(** The invariant of a group: every member is parallel to the front
    plane. *)
Lemma joinGroup_invariant (cp : ContourPlane) (gs gs' : list PlaneGroup) :
  joinGroup cp gs = Some gs' ->
  Forall membersParallelToFront gs -> Forall membersParallelToFront gs'.
Proof.
  revert gs'. induction gs as [|g gs IH]; simpl; intros gs' H Hall; [discriminate|].
  inversion Hall as [|? ? Hg Hgs]; subst.
  destruct (parallel_to_front (plane cp) g) eqn:Hp.
  - inversion H; subst; clear H. constructor; [|exact Hgs].
    intros q Hq. cbn [planes] in Hq. apply in_app_or in Hq.
    assert (Hsame : forall p, parallel_to_front p
                      (mkPlaneGroup (normal g) (planes g ++ [cp]))
                    = parallel_to_front p g).
    { intro p. unfold parallel_to_front in *. cbn [planes].
      destruct (planes g); [discriminate | reflexivity]. }
    rewrite Hsame. destruct Hq as [Hq|[<-|[]]]; [now apply Hg | exact Hp].
  - destruct (joinGroup cp gs) as [r|]; [|discriminate].
    inversion H; subst; clear H. constructor; [exact Hg|]. now apply IH.
Qed.

Lemma classifyPlane_invariant (cp : ContourPlane) (gs : list PlaneGroup) :
  selfParallel (plane cp) = true ->
  Forall membersParallelToFront gs ->
  Forall membersParallelToFront (classifyPlane cp gs).
Proof.
  intros Hself Hall. unfold classifyPlane.
  destruct (joinGroup cp gs) as [gs'|] eqn:Hj.
  - eapply joinGroup_invariant; eassumption.
  - apply Forall_app. split; [exact Hall|].
    constructor; [|constructor].
    intros q [<-|[]]. exact Hself.
Qed.

Lemma classify_all_invariant (l : list ContourPlane) (gs : list PlaneGroup) :
  (forall cp, In cp l -> selfParallel (plane cp) = true) ->
  Forall membersParallelToFront gs ->
  Forall membersParallelToFront (for_each l classifyPlane gs).
Proof.
  intros Hself Hall.
  apply (for_each_inv (Forall membersParallelToFront)); [|exact Hall].
  intros e s Hin. apply classifyPlane_invariant. now apply Hself.
Qed.

(** ** The closure planes *)

Lemma addBoundingBoxPlanes_spec (bbox : BoundingBox) (s : SpacePartitioner) :
  addBoundingBoxPlanes bbox s
  = mkSpacePartitioner
      (originalPlanes s ++ map (boxContour bbox) (seq 0 6))
      (parallelGroups s) (nonParallelPlanes s) (cells s) (diagnostics s).
Proof.
  unfold addBoundingBoxPlanes, for_range. simpl.
  repeat rewrite <- app_assoc. reflexivity.
Qed.

Lemma boxPlane_selfParallel (bbox : BoundingBox) (i : nat) :
  selfParallel (boxPlane bbox i) = true.
Proof.
  do 6 (destruct i as [|i]; [reflexivity|]). reflexivity.
Qed.

Lemma construct_originalPlanes (input : list ContourPlane) :
  originalPlanes (construct input)
  = input ++ map (boxContour
                    (computeTightBoundingBox (mkSpacePartitioner input [] [] [] [])))
                 (seq 0 6).
Proof.
  unfold construct. rewrite addBoundingBoxPlanes_spec. reflexivity.
Qed.

Lemma construct_fields (input : list ContourPlane) :
  nonParallelPlanes (construct input) = [] /\
  cells (construct input) = [] /\
  diagnostics (construct input) = [] /\
  parallelGroups (construct input)
  = for_each (originalPlanes (construct input)) classifyPlane [].
Proof.
  unfold construct. rewrite addBoundingBoxPlanes_spec. repeat split.
Qed.

(** ** The non-parallel set *)

Lemma collectNonParallel_spec (s : SpacePartitioner) :
  collectNonParallel s
  = mkSpacePartitioner (originalPlanes s) (parallelGroups s)
      (nonParallelPlanes s ++ filter (isNonParallel (parallelGroups s)) (originalPlanes s))
      (cells s) (diagnostics s).
Proof.
  unfold collectNonParallel. now rewrite for_each_filter.
Qed.

(** When fewer than three planes are collected, the phase changes nothing
    but the list of collected planes: no cell, no diagnostic. *)
Lemma nonparallel_phase_below_three (s : SpacePartitioner) :
  (length (nonParallelPlanes (collectNonParallel s)) < 3)%nat ->
  computeNonParallelPlaneCells s = collectNonParallel s /\
  cells (computeNonParallelPlaneCells s) = cells s /\
  diagnostics (computeNonParallelPlaneCells s) = diagnostics s.
Proof.
  intro Hlt. unfold computeNonParallelPlaneCells.
  destruct (Nat.ltb_spec (length (nonParallelPlanes (collectNonParallel s))) 3);
    [|lia].
  rewrite collectNonParallel_spec. repeat split.
Qed.

Lemma filter_none {A : Type} (keep : A -> bool) (l : list A) :
  (forall e, In e l -> keep e = false) -> filter keep l = [].
Proof.
  induction l as [|e l IH]; intro H; [reflexivity|]. simpl.
  rewrite (H e) by now left. apply IH. intros e' Hin. apply H. now right.
Qed.

Lemma construct_all_have_front (input : list ContourPlane) (cp : ContourPlane) :
  (forall q, In q input -> selfParallel (plane q) = true) ->
  In cp (originalPlanes (construct input)) ->
  existsb (parallel_to_front (plane cp)) (parallelGroups (construct input)) = true.
Proof.
  intros Hself Hin.
  destruct (construct_fields input) as (_ & _ & _ & ->).
  apply classify_all_have_front; [exact Hin|].
  rewrite construct_originalPlanes in Hin. apply in_app_or in Hin.
  destruct Hin as [Hin|Hin]; [now apply Hself|].
  apply in_map_iff in Hin. destruct Hin as [i [<- _]].
  apply boxPlane_selfParallel.
Qed.

(** A plane parallel to some plane is parallel to itself: a difference
    below the tolerance needs two finite operands, and the difference of a
    finite component with itself is zero. *)
Lemma close_to_self (x y : float) :
  (glm.abs1 (x - y) <? F32.tolerance)%F = true ->
  (glm.abs1 (x - x) <? F32.tolerance)%F = true.
Proof.
  rewrite !(sameValue_ltb _ _ _ (abs1_sameValue _)).
  unfold F32.abs, F32.sub.
  destruct x as [sx|sx| |sx mx ex].
  - intros _. now destruct sx.
  - destruct y as [sy|sy| |sy my ey], sx; try discriminate;
      destruct sy; discriminate.
  - discriminate.
  - intros _. unfold SFsub. rewrite Z.sub_diag. reflexivity.
Qed.

Lemma parallel_selfParallel (p q : Plane) :
  arePlanesParallel p q = true -> selfParallel p = true.
Proof.
  unfold selfParallel, arePlanesParallel, glm.all, glm.epsilonEqual.
  cbn [glm.bx glm.by_ glm.bz glm.abs glm.vsub glm.x glm.y glm.z].
  intro H. apply andb_true_iff in H. destruct H as [H Hz].
  apply andb_true_iff in H. destruct H as [Hx Hy].
  apply close_to_self in Hx, Hy, Hz.
  now rewrite Hx, Hy, Hz.
Qed.

(** The non-parallel set, exactly: the input planes that are not parallel
    to themselves, in input order. *)
Lemma nonparallel_set_characterised (input : list ContourPlane) :
  nonParallelPlanes (fst (computeCells (construct input)))
  = filter (fun cp => negb (selfParallel (plane cp))) input.
Proof.
  set (s := construct input).
  assert (Hnp : forall cp, In cp (originalPlanes s) ->
            isNonParallel (parallelGroups s) cp = negb (selfParallel (plane cp))).
  { intros cp Hin. unfold isNonParallel. f_equal.
    destruct (selfParallel (plane cp)) eqn:Hself.
    - destruct (construct_fields input) as (_ & _ & _ & Hg). fold s in Hg.
      rewrite Hg. now apply classify_all_have_front.
    - apply not_true_is_false. intro Hex. apply existsb_exists in Hex.
      destruct Hex as (g & _ & Hg). unfold parallel_to_front in Hg.
      destruct (planes g) as [|front rest]; [discriminate|].
      apply parallel_selfParallel in Hg. congruence. }
  assert (Hcollected : nonParallelPlanes (fst (computeCells s))
                       = filter (isNonParallel (parallelGroups s)) (originalPlanes s)).
  { destruct (construct_fields input) as (Hn & _ & _ & _). fold s in Hn.
    clearbody s.
    unfold computeCells. cbn [fst]. unfold computeNonParallelPlaneCells.
    rewrite collectNonParallel_spec, computeParallelPlaneCells_spec.
    record_fields. rewrite Hn. cbn [app].
    destruct (_ <? 3)%nat; [reflexivity|].
    unfold findIntersectionVertices.
    destruct (intersectionLoop _) as [[|v vs] reported]; reflexivity. }
  rewrite Hcollected.
  rewrite (filter_ext_in _ _ _ Hnp).
  unfold s. rewrite construct_originalPlanes, filter_app.
  rewrite (filter_none (fun cp => negb (selfParallel (plane cp)))
             (map _ (seq 0 6))).
  - apply app_nil_r.
  - intros cp Hin. apply in_map_iff in Hin. destruct Hin as [i [<- _]].
    cbn [boxContour plane]. now rewrite boxPlane_selfParallel.
Qed.

(** C1, amended.  When every input plane is parallel-within-tolerance to
    itself (the closure planes always are), every plane, input or closure,
    is parallel to the front plane of a group it was classified into, the
    non-parallel set is empty, and the cells [computeCells] returns are
    exactly the slab cells of the parallel phase. *)
Theorem nonparallel_set_empty (input : list ContourPlane) :
  (forall cp, In cp input -> selfParallel (plane cp) = true) ->
  let s := construct input in
  (forall cp, In cp (originalPlanes s) ->
     exists g, In g (parallelGroups s) /\ In cp (planes g) /\
               parallel_to_front (plane cp) g = true) /\
  nonParallelPlanes (fst (computeCells s)) = [] /\
  snd (computeCells s) = cells (computeParallelPlaneCells s) /\
  snd (computeCells s) = flat_map groupSlabs (parallelGroups s) /\
  Forall isSlabCell (snd (computeCells s)).
Proof.
  intros Hself s.
  assert (Hfront : forall cp, In cp (originalPlanes s) ->
             existsb (parallel_to_front (plane cp)) (parallelGroups s) = true)
    by (intros cp; now apply construct_all_have_front).
  assert (Hgroup : forall cp, In cp (originalPlanes s) ->
             exists g, In g (parallelGroups s) /\ In cp (planes g) /\
                       parallel_to_front (plane cp) g = true).
  { intros cp Hin.
    destruct (construct_fields input) as (_ & _ & _ & Hg). fold s in Hg.
    assert (Hall : Forall membersParallelToFront (parallelGroups s)).
    { rewrite Hg. apply classify_all_invariant; [|constructor].
      intros q Hq. unfold s in Hq. rewrite construct_originalPlanes in Hq.
      apply in_app_or in Hq. destruct Hq as [Hq|Hq]; [now apply Hself|].
      apply in_map_iff in Hq. destruct Hq as [i [<- _]].
      apply boxPlane_selfParallel. }
    assert (Hmem : memberOfGroup cp (parallelGroups s))
      by (rewrite Hg; now apply classify_all_members).
    destruct Hmem as (g & Hg1 & Hg2). exists g.
    repeat split; try assumption.
    exact (proj1 (Forall_forall _ _) Hall g Hg1 cp Hg2). }
  destruct (construct_fields input) as (Hnp & Hcells & _ & _). fold s in Hnp, Hcells.
  clearbody s.
  set (s1 := computeParallelPlaneCells s).
  assert (Hs1 : s1 = mkSpacePartitioner (originalPlanes s) (parallelGroups s) []
                       (flat_map groupSlabs (parallelGroups s)) (diagnostics s)).
  { unfold s1. rewrite computeParallelPlaneCells_spec, Hnp, Hcells. reflexivity. }
  assert (Hfilter : filter (isNonParallel (parallelGroups s)) (originalPlanes s) = []).
  { apply filter_none. intros cp Hin. unfold isNonParallel.
    now rewrite (Hfront cp Hin). }
  assert (Hcollect : collectNonParallel s1 = s1).
  { rewrite collectNonParallel_spec, Hs1. record_fields. now rewrite Hfilter. }
  assert (Hphase : computeNonParallelPlaneCells s1 = s1).
  { destruct (nonparallel_phase_below_three s1) as (-> & _).
    - rewrite Hcollect, Hs1. record_fields. simpl. lia.
    - exact Hcollect. }
  unfold computeCells. fold s1. rewrite Hphase. cbn [fst snd].
  split; [exact Hgroup|]. rewrite Hs1. record_fields.
  repeat split.
  apply Forall_forall. intros cell Hin. apply in_flat_map in Hin.
  destruct Hin as [g [_ Hin]].
  exact (proj1 (Forall_forall _ _) (groupSlabs_all_slabs g) cell Hin).
Qed.

Lemma nonparallel_set_empty_witness :
  nonParallelPlanes (fst (computeCells (construct tiltedInput))) = [] /\
  Forall isSlabCell (snd (computeCells (construct tiltedInput))).
Proof.
  assert (Hself : forall cp, In cp tiltedInput -> selfParallel (plane cp) = true).
  { intros cp [<-|[]]. vm_compute. reflexivity. }
  destruct (nonparallel_set_empty tiltedInput Hself) as (_ & Hnp & _ & _ & Hall).
  split; assumption.
Defined.

(** C1 as stated fails: every plane of [tinyInput], closure planes
    included, has a nonzero normal, yet the three input planes are not
    parallel to themselves (the squared length of the normal underflows to
    zero and normalisation yields an infinity and NaNs), so they form the
    non-parallel set and [computeCells] returns a fourth cell that is not a
    slab cell. *)
Lemma nonparallel_set_nonempty_tiny :
  forallb (fun cp => nonzeroNormal (plane cp))
          (originalPlanes (construct tinyInput)) = true /\
  nonParallelPlanes (fst (computeCells (construct tinyInput))) = tinyInput /\
  ~ Forall isSlabCell (snd (computeCells (construct tinyInput))).
Proof.
  split; [vm_compute; reflexivity|].
  split; [vm_compute; reflexivity|].
  intro Hall.
  assert (Hlen : Forall (fun cell => length (cell_vertices cell) = 8%nat)
                        (snd (computeCells (construct tinyInput)))).
  { eapply Forall_impl; [|exact Hall].
    intros cell (bottom & top & ->). reflexivity. }
  assert (Hb : forallb (fun cell => (length (cell_vertices cell) =? 8)%nat)
                       (snd (computeCells (construct tinyInput))) = true).
  { apply forallb_forall. intros cell Hin. apply Nat.eqb_eq.
    exact (proj1 (Forall_forall _ _) Hlen cell Hin). }
  assert (Hc : forallb (fun cell => (length (cell_vertices cell) =? 8)%nat)
                       (snd (computeCells (construct tinyInput))) = false)
    by (vm_compute; reflexivity).
  congruence.
Qed.

(** C2, the code at [tiltedInput]: the cutting plane is alone in its
    group, but it is parallel to the front plane of that group, itself, so
    the non-parallel set is empty and only the three slab cells of the
    closure planes are returned. *)
Theorem singleton_group_not_collected :
  map planes (parallelGroups (construct tiltedInput))
  = [ [tiltedPlane];
      map (boxContour (computeTightBoundingBox
                         (mkSpacePartitioner tiltedInput [] [] [] []))) [0; 1]%nat;
      map (boxContour (computeTightBoundingBox
                         (mkSpacePartitioner tiltedInput [] [] [] []))) [2; 3]%nat;
      map (boxContour (computeTightBoundingBox
                         (mkSpacePartitioner tiltedInput [] [] [] []))) [4; 5]%nat ] /\
  isNonParallel (parallelGroups (construct tiltedInput)) tiltedPlane = false /\
  nonParallelPlanes (fst (computeCells (construct tiltedInput))) = [] /\
  length (snd (computeCells (construct tiltedInput))) = 3%nat.
Proof. vm_compute. repeat split. Qed.

(** ** The triple loop *)

Lemma int_of_size_t_small (i : nat) :
  Z.of_nat i < 2147483648 -> int_of_size_t i = Z.of_nat i.
Proof.
  intro Hi. unfold int_of_size_t. rewrite Z.mod_small; lia.
Qed.


Lemma tripleBody_inv (planes : list ContourPlane) (i j k : nat) (st : solver_state) :
  (i < j < k)%nat -> (k < length planes)%nat ->
  Forall (accepted planes) (fst st) /\ snd st = [] ->
  Forall (accepted planes) (fst (tripleBody planes i j k st)) /\
  snd (tripleBody planes i j k st) = [].
Proof.
  intros Hijk Hk [Hacc Hlog]. unfold tripleBody.
  destruct (arePlanesParallel _ _ || arePlanesParallel _ _ || arePlanesParallel _ _);
    [now split|].
  unfold tryIntersection.
  destruct (isValid planes _) eqn:Hvalid; [|now split].
  cbn [fst snd]. split; [|exact Hlog].
  apply Forall_app. split; [exact Hacc|].
  constructor; [|constructor].
  exists i, j, k. unfold acceptedAt, position. cbn [vx vy vz associatedPlanes].
  repeat split; try lia.
  now destruct (computePlaneIntersection _ _ _).
Qed.

(** Every vertex the loop accepts comes from a triple [i < j < k] and
    passed the validity test; the [catch] branch never runs, so nothing is
    reported. *)
Lemma intersectionLoop_inv (planes : list ContourPlane) :
  Forall (accepted planes) (fst (intersectionLoop planes)) /\
  snd (intersectionLoop planes) = [].
Proof.
  unfold intersectionLoop.
  apply (for_range_inv
           (fun st => Forall (accepted planes) (fst st) /\ snd st = [])).
  - intros i st Hi Hst.
    apply (for_range_inv
             (fun st => Forall (accepted planes) (fst st) /\ snd st = []));
      [|exact Hst].
    intros j st' Hj Hst'.
    apply (for_range_inv
             (fun st => Forall (accepted planes) (fst st) /\ snd st = []));
      [|exact Hst'].
    intros k st'' Hk Hst''.
    apply tripleBody_inv; [lia | lia | exact Hst''].
  - split; [constructor | reflexivity].
Qed.




(** C6, the code on three planes through the z axis.  No two of them are
    parallel, so the triple reaches the solver; the coefficient matrix is
    singular, the division by its zero determinant yields infinities and
    NaNs instead of an exception, every comparison of a NaN distance with
    the tolerance is false, and the NaN point is accepted as a vertex: a
    cell is built from it and nothing is reported.  The same happens in
    the whole pipeline for the three planes scaled by 2^-100, which the
    first phase leaves to the solver. *)
Theorem singular_triple_accepted :
  arePlanesParallel (plane (nth 0 zAxisPlanes no_contour))
                    (plane (nth 1 zAxisPlanes no_contour)) = false /\
  arePlanesParallel (plane (nth 1 zAxisPlanes no_contour))
                    (plane (nth 2 zAxisPlanes no_contour)) = false /\
  arePlanesParallel (plane (nth 0 zAxisPlanes no_contour))
                    (plane (nth 2 zAxisPlanes no_contour)) = false /\
  intersectionLoop zAxisPlanes = ([nanVertex], []) /\
  findIntersectionVertices zAxisPlanes newPartitioner
  = mkSpacePartitioner [] [] []
      [mkConvexCell [nanVertex] [] (map plane zAxisPlanes)] [] /\
  nonParallelPlanes (fst (computeCells (construct tinyAxisInput)))
  = tinyAxisInput /\
  last (snd (computeCells (construct tinyAxisInput))) (slabCell no_plane no_plane)
  = mkConvexCell [nanVertex] [] (map plane tinyAxisInput) /\
  diagnostics (fst (computeCells (construct tinyAxisInput))) = [].
Proof. vm_compute. repeat split. Qed.

(** The [catch] branch of the solver is dead code: whatever the planes,
    no diagnostic is reported. *)
Lemma solver_reports_nothing (planes : list ContourPlane) (s : SpacePartitioner) :
  diagnostics (findIntersectionVertices planes s) = diagnostics s.
Proof.
  unfold findIntersectionVertices.
  pose proof (intersectionLoop_inv planes) as [_ Hlog].
  destruct (intersectionLoop planes) as [vs reported]. simpl in Hlog. subst.
  destruct vs; simpl; now rewrite app_nil_r.
Qed.


(** With the normals of the six faces pointing outward the same code
    recovers the cube: 8 vertices, each tagged with 3 plane indices and
    joined to 3 others, 12 edges. *)
Lemma outward_cube_edge_graph :
  cells (findIntersectionVertices outwardCube newPartitioner) = [outwardCell] /\
  length (cell_vertices outwardCell) = 8%nat /\
  map (fun v => length (associatedPlanes v)) (cell_vertices outwardCell)
  = [3; 3; 3; 3; 3; 3; 3; 3]%nat /\
  length (cell_edges outwardCell) = 12%nat /\
  map (degree outwardCell) [0; 1; 2; 3; 4; 5; 6; 7]
  = [3; 3; 3; 3; 3; 3; 3; 3]%nat.
Proof. vm_compute. repeat split. Qed.

(** ** [std::set_intersection] on plane indices *)





(** ** The cell assembler *)

Lemma intersectionEdges_inv (cellVertices : list Vertex) :
  Forall (fun e => exists i j, joins cellVertices e i j)
         (intersectionEdges cellVertices).
Proof.
  unfold intersectionEdges.
  apply (for_range_inv
           (Forall (fun e => exists i j, joins cellVertices e i j))); [|constructor].
  intros i es Hi Hes.
  apply (for_range_inv
           (Forall (fun e => exists i j, joins cellVertices e i j))); [|exact Hes].
  intros j es' Hj Hes'.
  destruct (Nat.leb_spec 2 (length (sharedPlanes (nth i cellVertices no_vertex)
                                                 (nth j cellVertices no_vertex))));
    [|exact Hes'].
  apply Forall_app. split; [exact Hes'|].
  constructor; [|constructor].
  exists i, j. unfold joins. repeat split; lia.
Qed.

Lemma findIntersectionVertices_cells (planes : list ContourPlane) (s : SpacePartitioner) :
  cells (findIntersectionVertices planes s)
  = cells s ++
    match fst (intersectionLoop planes) with
    | [] => []
    | vs => [intersectionCell vs (map plane planes)]
    end.
Proof.
  unfold findIntersectionVertices.
  destruct (intersectionLoop planes) as [[|v vs] reported]; simpl.
  - now rewrite app_nil_r.
  - reflexivity.
Qed.




(** ** Symmetries of binary32 arithmetic *)

(** The sign given to the rounding functions only ends up as the sign of
    the result. *)
Lemma abs_binary_round_aux (s1 s2 : bool) (m e : Z) (l : location) :
  SFabs (binary_round_aux F32.prec F32.emax s1 m e l) =
  SFabs (binary_round_aux F32.prec F32.emax s2 m e l).
Proof.
  unfold binary_round_aux.
  destruct (shr_fexp F32.prec F32.emax m e l) as [mrs' e'].
  destruct (shr_fexp F32.prec F32.emax _ e' loc_Exact) as [mrs'' e''].
  destruct (shr_m mrs''); try reflexivity.
  destruct (e'' <=? _); reflexivity.
Qed.

Lemma abs_binary_round (s1 s2 : bool) (m : positive) (e : Z) :
  SFabs (binary_round F32.prec F32.emax s1 m e) =
  SFabs (binary_round F32.prec F32.emax s2 m e).
Proof.
  unfold binary_round.
  destruct (shl_align _ _ _) as [mz ez].
  apply abs_binary_round_aux.
Qed.

Lemma abs_binary_normalize_opp (m e : Z) (sz : bool) :
  SFabs (binary_normalize F32.prec F32.emax (- m) e sz) =
  SFabs (binary_normalize F32.prec F32.emax m e sz).
Proof.
  destruct m; simpl; try reflexivity; apply abs_binary_round.
Qed.

(** |x - y| and |y - x| are the same number, NaN included. *)
Lemma f32_abs_sub_comm (x y : float) : F32.abs (x - y)%F = F32.abs (y - x)%F.
Proof.
  unfold F32.abs, F32.sub.
  destruct x as [sx|sx| |sx mx ex], y as [sy|sy| |sy my ey];
    try reflexivity;
    try (destruct sx, sy; reflexivity);
    try (destruct sx; reflexivity);
    try (destruct sy; reflexivity).
  unfold SFsub.
  rewrite (Z.min_comm ey ex).
  rewrite <- abs_binary_normalize_opp.
  f_equal. f_equal. lia.
Qed.

Lemma f32_mul_neg_neg (x : float) : (F32.neg x * F32.neg x)%F = (x * x)%F.
Proof.
  destruct x as [s|s| |s m e]; simpl; try reflexivity; destruct s; reflexivity.
Qed.

Lemma binary_round_aux_neg (s : bool) (m e : Z) (l : location) :
  binary_round_aux F32.prec F32.emax (negb s) m e l
  = SFopp (binary_round_aux F32.prec F32.emax s m e l).
Proof.
  unfold binary_round_aux.
  destruct (shr_fexp F32.prec F32.emax m e l) as [mrs' e'].
  destruct (shr_fexp F32.prec F32.emax _ e' loc_Exact) as [mrs'' e''].
  destruct (shr_m mrs''); try reflexivity.
  destruct (e'' <=? _); reflexivity.
Qed.

Lemma f32_mul_neg_l (x y : float) : (F32.neg x * y)%F = F32.neg (x * y)%F.
Proof.
  unfold F32.mul, F32.neg.
  destruct x as [sx|sx| |sx mx ex], y as [sy|sy| |sy my ey]; simpl;
    try reflexivity; try (now destruct sx, sy).
  rewrite <- binary_round_aux_neg. now destruct sx, sy.
Qed.

(** The test of one component of [epsilonEqual]. *)
Lemma close_comm (x y e : float) :
  (glm.abs1 (x - y) <? e)%F = (glm.abs1 (y - x) <? e)%F.
Proof.
  rewrite !(sameValue_ltb _ _ _ (abs1_sameValue _)).
  now rewrite f32_abs_sub_comm.
Qed.

Lemma close_sameValue_l (t x y e : float) :
  sameValue t x ->
  (glm.abs1 (t - y) <? e)%F = (glm.abs1 (x - y) <? e)%F.
Proof.
  intro H. apply sameValue_ltb, sameValue_abs1, sameValue_sub_l, H.
Qed.

Lemma epsilonEqual_comm (u v : glm.vec3) (eps : float) :
  glm.epsilonEqual u v eps = glm.epsilonEqual v u eps.
Proof.
  unfold glm.epsilonEqual, glm.abs, glm.vsub. simpl.
  now rewrite (close_comm (glm.x u)), (close_comm (glm.y u)),
              (close_comm (glm.z u)).
Qed.

(** Negating a vector changes the absolute value of its normalisation at
    most in the sign of a zero component. *)
Lemma abs_normalize_neg (n : glm.vec3) :
  sameValue (glm.abs1 (glm.x (glm.normalize (glm.vneg n))))
            (glm.abs1 (glm.x (glm.normalize n))) /\
  sameValue (glm.abs1 (glm.y (glm.normalize (glm.vneg n))))
            (glm.abs1 (glm.y (glm.normalize n))) /\
  sameValue (glm.abs1 (glm.z (glm.normalize (glm.vneg n))))
            (glm.abs1 (glm.z (glm.normalize n))).
Proof.
  unfold glm.normalize, glm.dot, glm.scale, glm.vneg.
  cbn [glm.x glm.y glm.z].
  rewrite !f32_mul_neg_neg, !f32_mul_neg_l.
  repeat split; apply abs1_neg.
Qed.

Lemma arePlanesParallel_sym (p q : Plane) :
  arePlanesParallel p q = arePlanesParallel q p.
Proof.
  unfold arePlanesParallel. now rewrite epsilonEqual_comm.
Qed.

Lemma arePlanesParallel_negate_l (p q : Plane) :
  arePlanesParallel (negatePlane p) q = arePlanesParallel p q.
Proof.
  unfold arePlanesParallel.
  change (normal_of (negatePlane p)) with (glm.vneg (normal_of p)).
  destruct (abs_normalize_neg (normal_of p)) as (Hx & Hy & Hz).
  unfold glm.all, glm.epsilonEqual, glm.abs, glm.vsub.
  cbn [glm.bx glm.by_ glm.bz glm.x glm.y glm.z].
  now rewrite (close_sameValue_l _ _ _ _ Hx), (close_sameValue_l _ _ _ _ Hy),
              (close_sameValue_l _ _ _ _ Hz).
Qed.

(** C8.  [arePlanesParallel] is symmetric, and negating the four
    coefficients of a plane changes its classification against no plane,
    on either side of the test. *)
Theorem arePlanesParallel_symmetric_sign_invariant (p q : Plane) :
  arePlanesParallel p q = arePlanesParallel q p /\
  arePlanesParallel (negatePlane p) q = arePlanesParallel p q /\
  arePlanesParallel q (negatePlane p) = arePlanesParallel q p.
Proof.
  split; [apply arePlanesParallel_sym|].
  split; [apply arePlanesParallel_negate_l|].
  rewrite (arePlanesParallel_sym q (negatePlane p)), (arePlanesParallel_sym q p).
  apply arePlanesParallel_negate_l.
Qed.

(** ** Signs and order of binary32 results *)






















(** ** Inward normals of the closure planes *)








(** ** The whole pipeline *)



(** A second call of [computeCells] on the same object is another matter:
    it runs both phases again and appends to [cells]. *)
Lemma computeCells_again_appends :
  length (snd (computeCells (fst (computeCells (construct tiltedInput)))))
  = 6%nat.
Proof. vm_compute. reflexivity. Qed.

(** * Further properties *)

(** ** What classification builds *)

Lemma joinGroup_partition (cp : ContourPlane) (gs gs' : list PlaneGroup) :
  joinGroup cp gs = Some gs' ->
  Permutation (flat_map planes gs') (cp :: flat_map planes gs) /\
  length gs' = length gs /\
  (Forall wellBuiltGroup gs -> Forall wellBuiltGroup gs').
Proof.
  revert gs'. induction gs as [|g gs IH]; simpl; intros gs' H; [discriminate|].
  destruct (parallel_to_front (plane cp) g) eqn:Hp.
  - inversion H; subst; clear H. cbn [flat_map planes length].
    split; [|split; [reflexivity|]].
    + rewrite <- app_assoc. cbn [app].
      apply Permutation_sym, Permutation_middle.
    + intro Hall. inversion Hall as [|? ? (front & rest & Hfront & Hn) Hgs]; subst.
      constructor; [|exact Hgs].
      exists front, (rest ++ [cp]). cbn [planes normal]. now rewrite Hfront.
  - destruct (joinGroup cp gs) as [r|]; [|discriminate].
    inversion H; subst; clear H. destruct (IH r eq_refl) as (IH1 & IH2 & IH3).
    cbn [flat_map length]. split; [|split; [now rewrite IH2|]].
    + eapply perm_trans; [apply Permutation_app_head, IH1|].
      apply Permutation_sym, Permutation_middle.
    + intro Hall. inversion Hall; subst. constructor; [assumption | now apply IH3].
Qed.

Lemma classifyPlane_partition (cp : ContourPlane) (gs : list PlaneGroup) :
  Permutation (flat_map planes (classifyPlane cp gs)) (cp :: flat_map planes gs) /\
  (Forall wellBuiltGroup gs -> Forall wellBuiltGroup (classifyPlane cp gs)).
Proof.
  unfold classifyPlane. destruct (joinGroup cp gs) as [gs'|] eqn:Hj.
  - destruct (joinGroup_partition _ _ _ Hj) as (H1 & _ & H3). now split.
  - split.
    + rewrite flat_map_app. cbn [flat_map planes app].
      apply Permutation_sym, Permutation_cons_append.
    + intro Hall. apply Forall_app. split; [exact Hall|].
      constructor; [|constructor]. now exists cp, [].
Qed.

Lemma classify_all_partition (l : list ContourPlane) (gs : list PlaneGroup) :
  Permutation (flat_map planes (for_each l classifyPlane gs))
              (flat_map planes gs ++ l) /\
  (Forall wellBuiltGroup gs ->
   Forall wellBuiltGroup (for_each l classifyPlane gs)).
Proof.
  unfold for_each. revert gs. induction l as [|e l IH]; intro gs; simpl.
  - rewrite app_nil_r. now split.
  - destruct (IH (classifyPlane e gs)) as [IH1 IH2].
    destruct (classifyPlane_partition e gs) as [H1 H2].
    split; [|intro Hall; now apply IH2, H2].
    eapply perm_trans; [exact IH1|].
    eapply perm_trans; [apply Permutation_app_tail, H1|].
    cbn [app]. apply Permutation_middle.
Qed.

Lemma constructed_groups_built (input : list ContourPlane) :
  Forall wellBuiltGroup (parallelGroups (construct input)) /\
  length (flat_map planes (parallelGroups (construct input)))
  = (length input + 6)%nat.
Proof.
  destruct (construct_fields input) as (_ & _ & _ & Hg). rewrite Hg.
  destruct (classify_all_partition (originalPlanes (construct input)) [])
    as [Hperm Hbuilt].
  split; [apply Hbuilt; constructor|].
  rewrite (Permutation_length Hperm). cbn [flat_map app].
  rewrite construct_originalPlanes, length_app, length_map, length_seq.
  reflexivity.
Qed.

(** X1.  The groups the constructor builds partition the working plane
    set: listing the members of all groups gives the planes of
    [originalPlanes] (input and closure), each as often as it occurs
    there; no group is empty, and the [normal] of a group is the normal of
    its first member. *)
Theorem groups_partition_planes (input : list ContourPlane) :
  Permutation (flat_map planes (parallelGroups (construct input)))
              (originalPlanes (construct input)) /\
  Forall wellBuiltGroup (parallelGroups (construct input)) /\
  length (flat_map planes (parallelGroups (construct input)))
  = (length input + 6)%nat.
Proof.
  destruct (constructed_groups_built input) as (Hbuilt & Hlen).
  split; [|now split].
  destruct (construct_fields input) as (_ & _ & _ & Hg). rewrite Hg.
  apply (classify_all_partition (originalPlanes (construct input)) []).
Qed.

(** ** How many slab cells *)

Lemma slabs_plus_groups (gs : list PlaneGroup) :
  Forall wellBuiltGroup gs ->
  (length (flat_map groupSlabs gs) + length gs
   = length (flat_map planes gs))%nat.
Proof.
  induction 1 as [|g gs (front & rest & Hfront & _) _ IH]; [reflexivity|].
  cbn [flat_map length]. rewrite !length_app, groupSlabs_length, Hfront.
  cbn [length]. lia.
Qed.

(** X2.  The parallel phase on a freshly constructed partitioner emits as
    many slab cells as there are planes (input and closure) minus the
    number of parallel groups. *)
Theorem slab_cells_count (input : list ContourPlane) :
  (length (cells (computeParallelPlaneCells (construct input)))
   + length (parallelGroups (construct input))
   = length input + 6)%nat.
Proof.
  rewrite computeParallelPlaneCells_spec. record_fields.
  destruct (construct_fields input) as (_ & Hcells & _ & _). rewrite Hcells.
  cbn [app].
  destruct (constructed_groups_built input) as (Hbuilt & Hlen).
  now rewrite (slabs_plus_groups _ Hbuilt), Hlen.
Qed.

(** ** The closure planes pair up *)

Lemma classifyPlane_length (cp : ContourPlane) (gs : list PlaneGroup) :
  length (classifyPlane cp gs)
  = (length gs
     + if existsb (parallel_to_front (plane cp)) gs then 0 else 1)%nat.
Proof.
  rewrite <- (length_map front_of), classifyPlane_fronts, length_app, length_map.
  now destruct (existsb _ gs).
Qed.

Lemma classify_all_length (l : list ContourPlane) (gs : list PlaneGroup) :
  (length (for_each l classifyPlane gs) <= length gs + length l)%nat.
Proof.
  unfold for_each. revert gs. induction l as [|e l IH]; intro gs; simpl; [lia|].
  specialize (IH (classifyPlane e gs)). rewrite classifyPlane_length in IH.
  destruct (existsb _ gs); lia.
Qed.

(** The closure plane of the far face of an axis has the same normalised
    normal, up to sign, as the one of the near face, so it is parallel to
    the same planes. *)
Lemma opposite_faces_same_test (bbox : BoundingBox) (k : nat) (q : Plane) :
  arePlanesParallel (boxPlane bbox (2 * k + 1)) q
  = arePlanesParallel (boxPlane bbox (2 * k)) q.
Proof.
  unfold arePlanesParallel.
  assert (Hn : glm.abs (glm.normalize (normal_of (boxPlane bbox (2 * k + 1))))
               = glm.abs (glm.normalize (normal_of (boxPlane bbox (2 * k))))).
  { do 3 (destruct k as [|k]; [reflexivity|]).
    replace (2 * S (S (S k)) + 1)%nat with (S (S (S (S (S (S (2 * k + 1)))))))
      by lia.
    replace (2 * S (S (S k)))%nat with (S (S (S (S (S (S (2 * k))))))) by lia.
    reflexivity. }
  now rewrite Hn.
Qed.

Lemma opposite_faces_same_front (bbox : BoundingBox) (k : nat) (g : PlaneGroup) :
  parallel_to_front (boxPlane bbox (2 * k + 1)) g
  = parallel_to_front (boxPlane bbox (2 * k)) g.
Proof.
  unfold parallel_to_front. destruct (planes g); [reflexivity|].
  apply opposite_faces_same_test.
Qed.

Lemma existsb_same {A : Type} (f g : A -> bool) (l : list A) :
  (forall x, f x = g x) -> existsb f l = existsb g l.
Proof.
  intro H. induction l as [|x l IH]; simpl; [reflexivity|].
  now rewrite H, IH.
Qed.

(** After the near face of an axis is classified, the far face finds a
    group: it opens none. *)
Lemma far_face_opens_no_group (bbox : BoundingBox) (k : nat) (gs : list PlaneGroup) :
  length (classifyPlane (boxContour bbox (2 * k + 1))
            (classifyPlane (boxContour bbox (2 * k)) gs))
  = length (classifyPlane (boxContour bbox (2 * k)) gs).
Proof.
  rewrite (classifyPlane_length (boxContour bbox (2 * k + 1))).
  cbn [boxContour plane].
  rewrite (existsb_same _ _ _ (opposite_faces_same_front bbox k)).
  pose proof (classifyPlane_has_front (boxContour bbox (2 * k)) gs
                (boxPlane_selfParallel bbox (2 * k))) as H.
  cbn [boxContour plane] in H. rewrite H. lia.
Qed.

Lemma joinGroup_grows (cp : ContourPlane) (gs gs' : list PlaneGroup) :
  joinGroup cp gs = Some gs' ->
  forall g, In g gs -> exists g', In g' gs' /\ incl (planes g) (planes g').
Proof.
  revert gs'. induction gs as [|g0 gs IH]; simpl; intros gs' H g Hg; [destruct Hg|].
  destruct (parallel_to_front (plane cp) g0).
  - inversion H; subst; clear H. destruct Hg as [<-|Hg].
    + eexists. split; [now left|]. cbn [planes]. now apply incl_appl, incl_refl.
    + exists g. split; [now right | apply incl_refl].
  - destruct (joinGroup cp gs) as [r|]; [|discriminate].
    inversion H; subst; clear H. destruct Hg as [<-|Hg].
    + exists g0. split; [now left | apply incl_refl].
    + destruct (IH r eq_refl g Hg) as (g' & Hg' & Hincl).
      exists g'. split; [now right | exact Hincl].
Qed.

Lemma classifyPlane_together (p q e : ContourPlane) (gs : list PlaneGroup) :
  togetherInGroup p q gs -> togetherInGroup p q (classifyPlane e gs).
Proof.
  intros (g & Hg & Hp & Hq). unfold classifyPlane.
  destruct (joinGroup e gs) as [gs'|] eqn:Hj.
  - destruct (joinGroup_grows _ _ _ Hj g Hg) as (g' & Hg' & Hincl).
    exists g'. split; [exact Hg'|]. split; now apply Hincl.
  - exists g. split; [apply in_or_app; now left|]. now split.
Qed.

Lemma classifyPlane_skip (cp : ContourPlane) (g : PlaneGroup) (gs : list PlaneGroup) :
  parallel_to_front (plane cp) g = false ->
  classifyPlane cp (g :: gs) = g :: classifyPlane cp gs.
Proof.
  intro H. unfold classifyPlane. simpl. rewrite H.
  now destruct (joinGroup cp gs).
Qed.

Lemma together_cons (p q : ContourPlane) (g : PlaneGroup) (gs : list PlaneGroup) :
  togetherInGroup p q gs -> togetherInGroup p q (g :: gs).
Proof.
  intros (g' & Hg' & H). exists g'. split; [now right | exact H].
Qed.

Lemma parallel_to_front_grown (p cp : ContourPlane) (g : PlaneGroup) :
  parallel_to_front (plane p) g = true ->
  parallel_to_front (plane p) (mkPlaneGroup (normal g) (planes g ++ [cp])) = true.
Proof.
  unfold parallel_to_front. cbn [planes].
  destruct (planes g); [discriminate | trivial].
Qed.

(** A plane that passes the same parallel tests as the plane classified
    just before it lands in the same group. *)
Lemma twin_joins_same_group (cp twin : ContourPlane) (gs : list PlaneGroup) :
  (forall g, parallel_to_front (plane twin) g = parallel_to_front (plane cp) g) ->
  selfParallel (plane cp) = true ->
  togetherInGroup cp twin (classifyPlane twin (classifyPlane cp gs)).
Proof.
  intros Hsame Hself. induction gs as [|g gs IH].
  - unfold classifyPlane at 2. cbn [joinGroup app].
    unfold classifyPlane. cbn [joinGroup].
    assert (H : parallel_to_front (plane twin)
                  (mkPlaneGroup (normal_of (plane cp)) [cp]) = true).
    { rewrite Hsame. exact Hself. }
    rewrite H. eexists. split; [now left|]. cbn [planes app].
    split; [now left | right; now left].
  - destruct (parallel_to_front (plane cp) g) eqn:Hp.
    + unfold classifyPlane at 2. cbn [joinGroup]. rewrite Hp.
      unfold classifyPlane. cbn [joinGroup].
      rewrite Hsame, (parallel_to_front_grown cp cp g Hp).
      eexists. split; [now left|]. cbn [planes].
      split; apply in_or_app.
      * left. apply in_or_app. right. now left.
      * right. now left.
    + rewrite (classifyPlane_skip cp g gs Hp).
      rewrite classifyPlane_skip by now rewrite Hsame.
      now apply together_cons.
Qed.

Lemma for_each_app {A S : Type} (l1 l2 : list A) (body : A -> S -> S) (s : S) :
  for_each (l1 ++ l2) body s = for_each l2 body (for_each l1 body s).
Proof. unfold for_each. apply fold_left_app. Qed.

Lemma for_each_cons {A S : Type} (e : A) (l : list A) (body : A -> S -> S) (s : S) :
  for_each (e :: l) body s = for_each l body (body e s).
Proof. reflexivity. Qed.

Lemma classify_all_together (p q : ContourPlane) (l : list ContourPlane)
    (gs : list PlaneGroup) :
  togetherInGroup p q gs -> togetherInGroup p q (for_each l classifyPlane gs).
Proof.
  apply (for_each_inv (togetherInGroup p q)).
  intros e s _. apply classifyPlane_together.
Qed.

(** X3.  Whatever the input, the constructor puts the two closure planes
    of each axis (indices 2k and 2k+1 among the six, k = 0, 1, 2) into the
    same parallel group. *)
Theorem closure_planes_pair_up (input : list ContourPlane) (k : nat) :
  (k < 3)%nat ->
  let bbox := computeTightBoundingBox (mkSpacePartitioner input [] [] [] []) in
  In (boxContour bbox (2 * k)) (originalPlanes (construct input)) /\
  In (boxContour bbox (2 * k + 1)) (originalPlanes (construct input)) /\
  togetherInGroup (boxContour bbox (2 * k)) (boxContour bbox (2 * k + 1))
                  (parallelGroups (construct input)).
Proof.
  intros Hk bbox.
  destruct (construct_fields input) as (_ & _ & _ & Hg). rewrite Hg.
  rewrite construct_originalPlanes. fold bbox.
  assert (Hin : forall i, (i < 6)%nat ->
            In (boxContour bbox i) (input ++ map (boxContour bbox) (seq 0 6))).
  { intros i Hi. apply in_or_app. right. apply in_map, in_seq. lia. }
  split; [apply Hin; lia|]. split; [apply Hin; lia|].
  assert (Hsplit : seq 0 6 = seq 0 (2 * k) ++ [2 * k; 2 * k + 1]%nat
                             ++ seq (2 * k + 2) (4 - 2 * k)).
  { destruct k as [|[|[|k]]]; [reflexivity | reflexivity | reflexivity | lia]. }
  rewrite Hsplit, !map_app, !for_each_app. cbn [map].
  apply classify_all_together.
  rewrite !for_each_cons. cbn [for_each fold_left].
  apply twin_joins_same_group.
  - intro g. cbn [boxContour plane]. apply opposite_faces_same_front.
  - apply boxPlane_selfParallel.
Qed.

Lemma closure_planes_pair_up_witness :
  togetherInGroup
    (boxContour (computeTightBoundingBox (mkSpacePartitioner tiltedInput [] [] [] [])) 2)
    (boxContour (computeTightBoundingBox (mkSpacePartitioner tiltedInput [] [] [] [])) 3)
    (parallelGroups (construct tiltedInput)).
Proof.
  exact (proj2 (proj2 (closure_planes_pair_up tiltedInput 1 ltac:(lia)))).
Defined.

(** ** What [computeCells] returns *)

Lemma computeCells_spec (s : SpacePartitioner) :
  originalPlanes (fst (computeCells s)) = originalPlanes s /\
  parallelGroups (fst (computeCells s)) = parallelGroups s /\
  nonParallelPlanes (fst (computeCells s))
  = nonParallelPlanes s
    ++ filter (isNonParallel (parallelGroups s)) (originalPlanes s) /\
  cells (fst (computeCells s))
  = cells s ++ flat_map groupSlabs (parallelGroups s)
    ++ intersectionCells
         (nonParallelPlanes s
          ++ filter (isNonParallel (parallelGroups s)) (originalPlanes s)) /\
  snd (computeCells s) = cells (fst (computeCells s)).
Proof.
  unfold computeCells. cbn [fst snd]. unfold computeNonParallelPlaneCells.
  rewrite collectNonParallel_spec, computeParallelPlaneCells_spec.
  record_fields. unfold intersectionCells.
  set (np := nonParallelPlanes s ++ _).
  destruct (length np <? 3)%nat.
  - record_fields. rewrite app_nil_r. repeat split.
  - rewrite findIntersectionVertices_cells. unfold findIntersectionVertices.
    destruct (intersectionLoop np) as [[|v vs] reported];
      record_fields; rewrite <- ?app_assoc; repeat split.
Qed.

Lemma collected_from_constructed (input : list ContourPlane) :
  filter (isNonParallel (parallelGroups (construct input)))
         (originalPlanes (construct input))
  = notSelfParallel input.
Proof.
  pose proof (nonparallel_set_characterised input) as Hchar.
  destruct (computeCells_spec (construct input)) as (_ & _ & Hnp & _).
  destruct (construct_fields input) as (Hempty & _).
  rewrite Hempty in Hnp. cbn [app] in Hnp. rewrite Hnp in Hchar. exact Hchar.
Qed.

Lemma pipeline_cells (input : list ContourPlane) :
  pipeline input
  = flat_map groupSlabs (parallelGroups (construct input))
    ++ intersectionCells (notSelfParallel input).
Proof.
  unfold pipeline.
  destruct (computeCells_spec (construct input)) as (_ & _ & _ & Hcells & ->).
  destruct (construct_fields input) as (Hempty & Hnone & _).
  rewrite Hcells, Hempty, Hnone. cbn [app].
  now rewrite collected_from_constructed.
Qed.

Lemma closure_groups_bound (bbox : BoundingBox) (gs : list PlaneGroup) :
  (length (for_each (map (boxContour bbox) (seq 0 6)) classifyPlane gs)
   <= length gs + 3)%nat.
Proof.
  cbn [seq map]. rewrite !for_each_cons. cbn [for_each fold_left].
  pose proof (far_face_opens_no_group bbox 0) as H0.
  pose proof (far_face_opens_no_group bbox 1) as H1.
  pose proof (far_face_opens_no_group bbox 2) as H2.
  cbn [Nat.mul Nat.add] in H0, H1, H2.
  rewrite H2.
  rewrite (classifyPlane_length (boxContour bbox 4)), H1.
  rewrite (classifyPlane_length (boxContour bbox 2)), H0.
  rewrite (classifyPlane_length (boxContour bbox 0)).
  repeat match goal with |- context [if ?b then _ else _] => destruct b end; lia.
Qed.

Lemma closure_slabs_exist (input : list ContourPlane) :
  (length (parallelGroups (construct input)) <= length input + 3)%nat /\
  (3 <= length (flat_map groupSlabs (parallelGroups (construct input))))%nat.
Proof.
  assert (Hgroups : (length (parallelGroups (construct input))
                     <= length input + 3)%nat).
  { destruct (construct_fields input) as (_ & _ & _ & ->).
    rewrite construct_originalPlanes, for_each_app.
    pose proof (closure_groups_bound
                  (computeTightBoundingBox (mkSpacePartitioner input [] [] [] []))
                  (for_each input classifyPlane [])) as H1.
    pose proof (classify_all_length input []) as H2. cbn [length] in H2. lia. }
  destruct (constructed_groups_built input) as (Hbuilt & Hlen).
  pose proof (slabs_plus_groups _ Hbuilt) as Hslabs. rewrite Hlen in Hslabs.
  split; [exact Hgroups | lia].
Qed.

(** X4.  Every run returns at least three cells, whatever the input (the
    empty input included): the six closure planes open at most three
    groups, so the constructor builds at most three groups more than there
    are input planes, and the parallel phase emits at least three slab
    cells. *)
Theorem at_least_three_cells (input : list ContourPlane) :
  (length (parallelGroups (construct input)) <= length input + 3)%nat /\
  (3 <= length (cells (computeParallelPlaneCells (construct input))))%nat /\
  (3 <= length (pipeline input))%nat.
Proof.
  destruct (closure_slabs_exist input) as (Hgroups & Hslabs).
  split; [exact Hgroups|]. split.
  - rewrite computeParallelPlaneCells_spec. record_fields.
    rewrite length_app. lia.
  - rewrite pipeline_cells, length_app. lia.
Qed.

(** X5.  What a run returns, in closed form: the slab cells of the groups,
    group by group, followed by at most one cell, the one the solver
    builds from the input planes that are not parallel to themselves
    (none when there are fewer than three of them, or when no vertex is
    accepted).  These planes, in input order, are the non-parallel set the
    run leaves behind; the groups and the plane list are not changed. *)
Theorem pipeline_closed_form (input : list ContourPlane) :
  pipeline input
  = flat_map groupSlabs (parallelGroups (construct input))
    ++ intersectionCells (notSelfParallel input) /\
  nonParallelPlanes (fst (computeCells (construct input)))
  = notSelfParallel input /\
  parallelGroups (fst (computeCells (construct input)))
  = parallelGroups (construct input) /\
  originalPlanes (fst (computeCells (construct input)))
  = originalPlanes (construct input) /\
  (length (pipeline input)
   <= length (flat_map groupSlabs (parallelGroups (construct input))) + 1)%nat.
Proof.
  destruct (computeCells_spec (construct input)) as (Ho & Hg & _).
  split; [apply pipeline_cells|].
  split; [apply nonparallel_set_characterised|].
  split; [exact Hg|]. split; [exact Ho|].
  rewrite pipeline_cells, length_app. unfold intersectionCells.
  destruct (_ <? 3)%nat; [cbn [length]; lia|].
  destruct (fst (intersectionLoop _)); cbn [length]; lia.
Qed.

(** X6.  [computeCells] is not idempotent.  A second call on the same
    object returns the cells of the first call, then the slab cells once
    more, then the cell the solver builds from the non-parallel planes
    listed twice: [nonParallelPlanes] is appended to, never cleared. *)
Theorem computeCells_twice (input : list ContourPlane) :
  let again := computeCells (fst (computeCells (construct input))) in
  snd again
  = pipeline input
    ++ flat_map groupSlabs (parallelGroups (construct input))
    ++ intersectionCells (notSelfParallel input ++ notSelfParallel input) /\
  nonParallelPlanes (fst again)
  = notSelfParallel input ++ notSelfParallel input /\
  (length (pipeline input) + 3 <= length (snd again))%nat.
Proof.
  intro again. unfold again.
  destruct (computeCells_spec (construct input)) as (Ho & Hg & _ & _ & Hfirst).
  destruct (computeCells_spec (fst (computeCells (construct input))))
    as (_ & _ & Hnp & Hcells & ->).
  rewrite Hnp, Hcells, Hg, Ho, <- Hfirst.
  rewrite collected_from_constructed, nonparallel_set_characterised.
  fold (pipeline input).
  split; [reflexivity|]. split; [reflexivity|].
  rewrite !length_app.
  destruct (closure_slabs_exist input) as (_ & H). lia.
Qed.

(** ** Degenerate planes *)

Lemma zeroNormal_not_selfParallel (p : Plane) :
  zeroNormal p = true -> selfParallel p = false.
Proof.
  destruct p as [pa pb pc pd]. unfold zeroNormal. cbn [a b c].
  destruct pa as [sa| | |]; try discriminate.
  destruct pb as [sb| | |]; try discriminate.
  destruct pc as [sc| | |]; try discriminate.
  intros _. destruct sa, sb, sc; vm_compute; reflexivity.
Qed.

(** X7.  A plane whose normal is the zero vector is parallel to no plane,
    itself included, in either argument position: normalising it gives
    NaN.  As an input plane it is therefore always collected into the
    non-parallel set. *)
Theorem zero_normal_plane_alone (input : list ContourPlane)
    (cp : ContourPlane) (q : Plane) :
  In cp input ->
  zeroNormal (plane cp) = true ->
  arePlanesParallel (plane cp) q = false /\
  arePlanesParallel q (plane cp) = false /\
  In cp (nonParallelPlanes (fst (computeCells (construct input)))).
Proof.
  intros Hin Hzero.
  pose proof (zeroNormal_not_selfParallel _ Hzero) as Hself.
  assert (Hl : arePlanesParallel (plane cp) q = false).
  { apply not_true_is_false. intro H.
    apply parallel_selfParallel in H. congruence. }
  split; [exact Hl|]. split; [now rewrite arePlanesParallel_sym|].
  rewrite nonparallel_set_characterised. apply filter_In.
  split; [exact Hin|]. now rewrite Hself.
Qed.

Lemma zero_normal_plane_alone_witness :
  arePlanesParallel (plane zeroPlane) (plane zeroPlane) = false /\
  In zeroPlane (nonParallelPlanes (fst (computeCells (construct [zeroPlane])))).
Proof.
  destruct (zero_normal_plane_alone [zeroPlane] zeroPlane (plane zeroPlane))
    as (H1 & _ & H3); [now left | reflexivity |].
  split; [exact H1 | exact H3].
Defined.

(** ** The validity test and NaN *)

Lemma f32_mul_nan_r (x : float) : (x * S754_nan)%F = S754_nan.
Proof. now destruct x. Qed.

Lemma f32_add_nan_r (x : float) : (x + S754_nan)%F = S754_nan.
Proof. now destruct x. Qed.

Lemma computeDistance_nan (pl : Plane) (point : glm.vec3) :
  hasNaN point = true -> computeDistance pl point = S754_nan.
Proof.
  destruct point as [px py pz]. unfold hasNaN, computeDistance.
  cbn [glm.x glm.y glm.z]. intro H.
  apply orb_true_iff in H. destruct H as [H|H];
    [apply orb_true_iff in H; destruct H as [H|H]|].
  - destruct px; try discriminate. now rewrite f32_mul_nan_r.
  - destruct py; try discriminate. now rewrite f32_mul_nan_r, f32_add_nan_r.
  - destruct pz; try discriminate. now rewrite f32_mul_nan_r, f32_add_nan_r.
Qed.

(** X8.  A point with a NaN coordinate passes the validity test of the
    solver against every list of planes: its distance to every plane is
    NaN, and [NaN > 0.0001f] is false. *)
Theorem nan_point_always_valid (planes : list ContourPlane) (point : glm.vec3) :
  hasNaN point = true ->
  isValid planes point = true /\
  forall cp, In cp planes -> computeDistance (plane cp) point = S754_nan.
Proof.
  intro H. split.
  - unfold isValid. apply forallb_forall. intros cp _.
    now rewrite (computeDistance_nan _ _ H).
  - intros cp _. now apply computeDistance_nan.
Qed.

Lemma nan_point_always_valid_witness :
  isValid cubePlanes (glm.mkvec3 F32.zero S754_nan F32.zero) = true.
Proof.
  exact (proj1 (nan_point_always_valid cubePlanes
                  (glm.mkvec3 F32.zero S754_nan F32.zero) eq_refl)).
Defined.

(** ** Singular systems *)

Lemma f32_one_over_zero (z : float) :
  isZero z = true -> exists s, (F32.one / z)%F = S754_infinity s.
Proof.
  destruct z as [s| | |]; try discriminate. intros _. now exists s.
Qed.

Lemma f32_mul_inf_not_finite (x : float) (s : bool) :
  F32.is_finite (x * S754_infinity s)%F = false.
Proof. now destruct x. Qed.

Lemma f32_mul_not_finite_l (m v : float) :
  F32.is_finite m = false -> F32.is_finite (m * v)%F = false.
Proof. destruct m, v; try discriminate; reflexivity. Qed.

Lemma f32_add_not_finite (x y : float) :
  F32.is_finite x = false -> F32.is_finite y = false ->
  F32.is_finite (x + y)%F = false.
Proof.
  destruct x as [| sx | |], y as [| sy | |]; try discriminate; try reflexivity.
  intros _ _. now destruct sx, sy.
Qed.

(** X9.  When the determinant [glm::inverse] divides by is zero, the point
    [computePlaneIntersection] returns has no finite coordinate: each one
    is an infinity or NaN, whatever the offsets of the planes.  No
    exception is raised and no triple is skipped. *)
Theorem singular_system_not_finite (p1 p2 p3 : Plane) :
  isZero (determinant (coefficientMatrix p1 p2 p3)) = true ->
  F32.is_finite (glm.x (computePlaneIntersection p1 p2 p3)) = false /\
  F32.is_finite (glm.y (computePlaneIntersection p1 p2 p3)) = false /\
  F32.is_finite (glm.z (computePlaneIntersection p1 p2 p3)) = false.
Proof.
  intro Hdet. apply f32_one_over_zero in Hdet. destruct Hdet as [s Hs].
  unfold determinant, coefficientMatrix, glm.mat3_of_scalars in Hs.
  cbn [glm.x glm.y glm.z glm.col0 glm.col1 glm.col2] in Hs.
  unfold computePlaneIntersection, glm.mulv, glm.inverse, glm.mat3_of_scalars.
  cbn [glm.x glm.y glm.z glm.col0 glm.col1 glm.col2].
  rewrite Hs.
  repeat split;
    repeat apply f32_add_not_finite;
    apply f32_mul_not_finite_l, f32_mul_inf_not_finite.
Qed.

Lemma singular_system_not_finite_witness :
  F32.is_finite
    (glm.x (computePlaneIntersection (plane (nth 0 zAxisPlanes no_contour))
                                     (plane (nth 1 zAxisPlanes no_contour))
                                     (plane (nth 2 zAxisPlanes no_contour))))
  = false.
Proof.
  exact (proj1 (singular_system_not_finite
                  (plane (nth 0 zAxisPlanes no_contour))
                  (plane (nth 1 zAxisPlanes no_contour))
                  (plane (nth 2 zAxisPlanes no_contour)) eq_refl)).
Defined.

(** ** Slabs across the Y axis *)

Lemma isZero_mul_l (z x : float) :
  isZero z = true -> F32.is_finite x = true -> isZero (z * x)%F = true.
Proof. destruct z, x; try discriminate; reflexivity. Qed.

Lemma isZero_mul_r (x z : float) :
  F32.is_finite x = true -> isZero z = true -> isZero (x * z)%F = true.
Proof. destruct z, x; try discriminate; reflexivity. Qed.

Lemma isZero_sub (x y : float) :
  isZero x = true -> isZero y = true -> isZero (x - y)%F = true.
Proof.
  destruct x as [sx| | |], y as [sy| | |]; try discriminate.
  intros _ _. now destruct sx, sy.
Qed.

Lemma isZero_add (x y : float) :
  isZero x = true -> isZero y = true -> isZero (x + y)%F = true.
Proof.
  destruct x as [sx| | |], y as [sy| | |]; try discriminate.
  intros _ _. now destruct sx, sy.
Qed.

Lemma isZero_neg (x : float) : isZero x = true -> isZero (- x)%F = true.
Proof. now destruct x. Qed.

Lemma isZero_finite (x : float) : isZero x = true -> F32.is_finite x = true.
Proof. now destruct x. Qed.

Lemma slabVertex_on_axis (bottom top : Plane) (i : Z) :
  isZero (a bottom) = true -> isZero (c bottom) = true ->
  F32.is_finite (b bottom) = true ->
  F32.is_finite (d bottom) = true -> F32.is_finite (d top) = true ->
  onYAxis (slabVertex bottom top i) = true /\
  sameValue (vy (slabVertex bottom top i))
            (b bottom * (if Z.land i 4 =? 0 then d top else d bottom))%F.
Proof.
  intros Ha Hc Hb Hdb Hdt.
  set (tangent := glm.cross (normal_of bottom) (glm.mkvec3 F32.zero F32.one F32.zero)).
  set (bitangent := glm.cross (normal_of bottom) tangent).
  assert (Ht : isZero (glm.x tangent) = true /\ isZero (glm.y tangent) = true /\
               isZero (glm.z tangent) = true).
  { unfold tangent, glm.cross, normal_of. cbn [glm.x glm.y glm.z].
    repeat split; apply isZero_sub;
      first [ apply isZero_mul_l; [assumption | reflexivity]
            | apply isZero_mul_r; [reflexivity | assumption]
            | apply isZero_mul_r; [assumption | reflexivity]
            | apply isZero_mul_l; [reflexivity | assumption] ]. }
  destruct Ht as (Htx & Hty & Htz).
  assert (Hbt : isZero (glm.x bitangent) = true /\ isZero (glm.y bitangent) = true /\
                isZero (glm.z bitangent) = true).
  { unfold bitangent, glm.cross, normal_of. cbn [glm.x glm.y glm.z].
    repeat split; apply isZero_sub;
      first [ apply isZero_mul_l; [assumption | now apply isZero_finite]
            | apply isZero_mul_r; [now apply isZero_finite | assumption]
            | apply isZero_mul_r; [assumption | assumption]
            | apply isZero_mul_l; [assumption | assumption] ]. }
  destruct Hbt as (Hbx & Hby & Hbz).
  assert (Hside : forall (flag : bool) (u : glm.vec3),
            isZero (glm.x u) = true -> isZero (glm.y u) = true ->
            isZero (glm.z u) = true ->
            let w := glm.scale (if flag then glm.vneg u else u) F32.hundred in
            isZero (glm.x w) = true /\ isZero (glm.y w) = true /\
            isZero (glm.z w) = true).
  { intros flag u Hx Hy Hz. destruct flag; cbn [glm.scale glm.vneg glm.x glm.y glm.z];
      repeat split; apply isZero_mul_l;
        first [reflexivity | assumption | now apply isZero_neg]. }
  unfold slabVertex. fold tangent. fold bitangent. cbv zeta.
  destruct (Hside (Z.land i 1 =? 0) tangent Htx Hty Htz) as (H1x & H1y & H1z).
  destruct (Hside (Z.land i 2 =? 0) bitangent Hbx Hby Hbz) as (H2x & H2y & H2z).
  set (u1 := glm.scale (if Z.land i 1 =? 0 then _ else _) _) in *.
  set (u2 := glm.scale (if Z.land i 2 =? 0 then _ else _) _) in *.
  assert (Hd : F32.is_finite (if Z.land i 4 =? 0 then d top else d bottom) = true)
    by now destruct (Z.land i 4 =? 0).
  set (dd := if Z.land i 4 =? 0 then d top else d bottom) in *.
  unfold onYAxis, Vertex_xyz, glm.vadd, glm.scale, normal_of.
  cbn [vx vy vz glm.x glm.y glm.z].
  split.
  - apply andb_true_iff. split; apply isZero_add;
      try (apply isZero_add; assumption);
      apply isZero_mul_l; assumption.
  - apply sameValue_add_zero_l; [now apply isZero_add | apply sameValue_refl].
Qed.

(** X10.  A slab whose bottom plane has a normal along the Y axis (zero x
    and z components, finite y component and finite offsets) collapses:
    the tangent [cross(normal, (0,1,0))] and the bitangent are zero, so
    all eight vertices lie on the Y axis, the first four at the height
    [b * top.d] and the last four at [b * bottom.d], each up to the sign
    of zero. *)
Theorem y_axis_slab_collapses (bottom top : Plane) :
  isZero (a bottom) = true -> isZero (c bottom) = true ->
  F32.is_finite (b bottom) = true ->
  F32.is_finite (d bottom) = true -> F32.is_finite (d top) = true ->
  length (cell_vertices (slabCell bottom top)) = 8%nat /\
  Forall (fun v => onYAxis v = true) (cell_vertices (slabCell bottom top)) /\
  forall n, (n < 8)%nat ->
    sameValue (vy (nth n (cell_vertices (slabCell bottom top)) no_vertex))
              (b bottom * (if (n <? 4)%nat then d top else d bottom))%F.
Proof.
  intros Ha Hc Hb Hdb Hdt.
  pose proof (fun i => slabVertex_on_axis bottom top i Ha Hc Hb Hdb Hdt) as Hv.
  split; [reflexivity|]. split.
  - unfold slabCell, for_range. cbn [cell_vertices Nat.sub seq fold_left app].
    repeat constructor; apply Hv.
  - intros n Hn. unfold slabCell, for_range.
    cbn [cell_vertices Nat.sub seq fold_left app].
    do 8 (destruct n as [|n]; [exact (proj2 (Hv _))|]). lia.
Qed.

Lemma y_axis_slab_collapses_witness :
  Forall (fun v => onYAxis v = true)
    (cell_vertices
       (slabCell (mkPlane F32.zero F32.one F32.zero F32.one)
                 (mkPlane F32.zero (- F32.one)%F F32.zero F32.one))).
Proof.
  exact (proj1 (proj2 (y_axis_slab_collapses
                  (mkPlane F32.zero F32.one F32.zero F32.one)
                  (mkPlane F32.zero (- F32.one)%F F32.zero F32.one)
                  eq_refl eq_refl eq_refl eq_refl eq_refl))).
Defined.

(** ** The signed distance and the orientation of a plane *)

Lemma sameValue_trans (t x y : float) :
  sameValue t x -> sameValue x y -> sameValue t y.
Proof.
  intros [->|[Ht Hx]] [->|[Hx' Hy]]; try (now left); try (right; now split).
Qed.

Lemma sameValue_add_l (t x y : float) :
  sameValue t x -> sameValue (t + y)%F (x + y)%F.
Proof.
  intros [->|[Ht Hx]]; [now left|].
  destruct t as [st| | |], x as [sx| | |]; try discriminate.
  destruct y as [sy|sy| |sy my ey]; try (now left).
  right. now destruct st, sx, sy.
Qed.

Lemma binary_normalize_neg (z e : Z) :
  sameValue (binary_normalize F32.prec F32.emax (- z) e false)
            (SFopp (binary_normalize F32.prec F32.emax z e false)).
Proof.
  destruct z as [|m|m]; cbn [Z.opp binary_normalize].
  - right. now split.
  - left. unfold binary_round. destruct (shl_align _ _ _) as [mz ez].
    apply (binary_round_aux_neg false).
  - left. unfold binary_round. destruct (shl_align _ _ _) as [mz ez].
    rewrite <- (binary_round_aux_neg true). reflexivity.
Qed.

Lemma f32_add_neg_neg (x y : float) :
  sameValue (F32.neg x + F32.neg y)%F (F32.neg (x + y))%F.
Proof.
  unfold F32.neg, F32.add.
  destruct x as [sx|sx| |sx mx ex], y as [sy|sy| |sy my ey];
    try (now left);
    try (destruct sx, sy; first [now left | right; now split]).
  cbn [SFopp SFadd].
  replace (cond_Zopp (negb sx) (Z.pos (fst (shl_align mx ex (Z.min ex ey))))
           + cond_Zopp (negb sy) (Z.pos (fst (shl_align my ey (Z.min ex ey)))))
    with (- (cond_Zopp sx (Z.pos (fst (shl_align mx ex (Z.min ex ey))))
             + cond_Zopp sy (Z.pos (fst (shl_align my ey (Z.min ex ey))))))
    by (destruct sx, sy; cbn [negb cond_Zopp]; lia).
  apply binary_normalize_neg.
Qed.

Lemma computeDistance_negate (pl : Plane) (point : glm.vec3) :
  sameValue (computeDistance (negatePlane pl) point)
            (F32.neg (computeDistance pl point)).
Proof.
  unfold computeDistance, negatePlane. cbn [a b c d].
  change (- ?u)%F with (F32.neg u).
  rewrite !f32_mul_neg_l.
  eapply sameValue_trans; [|apply f32_add_neg_neg].
  apply sameValue_add_l.
  eapply sameValue_trans; [|apply f32_add_neg_neg].
  apply sameValue_add_l.
  apply f32_add_neg_neg.
Qed.

Lemma SFcompare_neg (x y : float) :
  SFcompare (SFopp x) (SFopp y) = SFcompare y x.
Proof.
  rewrite (SFcompare_antisym x y).
  destruct x as [sx|sx| |sx mx ex], y as [sy|sy| |sy my ey]; simpl;
    try reflexivity;
    try (destruct sx, sy; reflexivity);
    try (destruct sx; reflexivity);
    try (destruct sy; reflexivity).
  destruct sx, sy; simpl; try reflexivity;
    destruct (ex ?= ey); simpl; try reflexivity;
    destruct (Pos.compare_cont Eq mx my); reflexivity.
Qed.

Lemma test_negate (pl : Plane) (point : glm.vec3) :
  (computeDistance (negatePlane pl) point >? F32.tolerance)%F
  = (computeDistance pl point <? - F32.tolerance)%F.
Proof.
  unfold F32.gtb, F32.ltb, SFltb.
  destruct (sameValue_facts _ _ (computeDistance_negate pl point)) as (_ & _ & Hcmp).
  rewrite Hcmp. unfold F32.neg.
  change F32.tolerance with (SFopp (SFopp F32.tolerance)) at 1.
  now rewrite SFcompare_neg.
Qed.

(** X20.  Flipping the orientation of a plane negates the signed distance
    [computeDistance] returns (up to the sign of zero, NaN staying NaN),
    and so flips the side the validity test of the solver accepts: with
    every plane negated, a point is valid exactly when no plane has it at
    a distance below -0.0001. *)
Theorem orientation_flips_test (planes : list ContourPlane) (pl : Plane)
    (point : glm.vec3) :
  sameValue (computeDistance (negatePlane pl) point)
            (- computeDistance pl point)%F /\
  (computeDistance (negatePlane pl) point >? F32.tolerance)%F
  = (computeDistance pl point <? - F32.tolerance)%F /\
  isValid (map (fun cp => bare (negatePlane (plane cp))) planes) point
  = forallb (fun cp => negb (computeDistance (plane cp) point
                             <? - F32.tolerance)%F) planes.
Proof.
  split; [apply computeDistance_negate|]. split; [apply test_negate|].
  unfold isValid. induction planes as [|cp planes IH]; [reflexivity|].
  cbn [map forallb bare plane]. now rewrite IH, test_negate.
Qed.

(** ** Rendering *)

Lemma for_each_call_some {A : Type} (l : list A)
    (body : A -> option (list GLcall)) (f : A -> list GLcall)
    (issued : list GLcall) :
  (forall e, In e l -> body e = Some (f e)) ->
  for_each_call l body (Some issued) = Some (issued ++ flat_map f l).
Proof.
  unfold for_each_call, for_each. revert issued.
  induction l as [|e l IH]; intros issued Hbody; simpl.
  - now rewrite app_nil_r.
  - rewrite (Hbody e) by now left. rewrite IH.
    + now rewrite <- app_assoc.
    + intros e' Hin. apply Hbody. now right.
Qed.

Lemma vertexAt_in_range (cell : ConvexCell) (index : Z) :
  indexInRange cell index ->
  vertexAt cell index
  = Some (nth (Z.to_nat index) (cell_vertices cell) no_vertex).
Proof.
  intros [Hlo Hhi]. unfold vertexAt.
  destruct (Z.leb_spec 0 index); [|lia].
  destruct (Z.ltb_spec index (Z.of_nat (length (cell_vertices cell)))); [|lia].
  cbn [andb]. apply nth_error_nth'. lia.
Qed.

Lemma renderCell_in_range (cell : ConvexCell) :
  edgesInRange cell -> renderCell cell = Some (cellCalls cell).
Proof.
  intro Hrange. unfold renderCell.
  rewrite (for_each_call_some (cell_edges cell) (renderEdge cell) (edgeCalls cell)).
  - unfold cellCalls. now rewrite <- app_assoc.
  - intros e He.
    destruct (proj1 (Forall_forall _ _) Hrange e He) as [H1 H2].
    unfold renderEdge.
    now rewrite (vertexAt_in_range _ _ H1), (vertexAt_in_range _ _ H2).
Qed.

Lemma vertexCalls_app (l1 l2 : list GLcall) :
  vertexCalls (l1 ++ l2) = (vertexCalls l1 + vertexCalls l2)%nat.
Proof. unfold vertexCalls. now rewrite filter_app, length_app. Qed.

Lemma vertexCalls_edges (cell : ConvexCell) (es : list Edge) :
  vertexCalls (flat_map (edgeCalls cell) es) = (2 * length es)%nat /\
  length (flat_map (edgeCalls cell) es) = (3 * length es)%nat.
Proof.
  induction es as [|e es [IH1 IH2]]; [now split|].
  cbn [flat_map]. rewrite vertexCalls_app, length_app, IH1, IH2.
  cbn [length]. unfold vertexCalls, edgeCalls. cbn [filter length]. lia.
Qed.

Lemma vertexCalls_cells (cs : list ConvexCell) :
  vertexCalls (flat_map cellCalls cs) = (2 * edgeCount cs)%nat /\
  length (flat_map cellCalls cs) = (2 * length cs + 3 * edgeCount cs)%nat.
Proof.
  unfold edgeCount.
  induction cs as [|cell cs [IH1 IH2]]; [now split|].
  cbn [flat_map]. rewrite vertexCalls_app, !length_app, IH1, IH2.
  unfold cellCalls at 1 2. rewrite !vertexCalls_app, !length_app.
  destruct (vertexCalls_edges cell (cell_edges cell)) as [-> ->].
  unfold vertexCalls. cbn [filter length]. lia.
Qed.

Lemma renderCells_in_range (s : SpacePartitioner) :
  Forall edgesInRange (cells s) ->
  renderCells s
  = Some (glPolygonMode_FRONT_AND_BACK_LINE :: flat_map cellCalls (cells s)).
Proof.
  intro Hrange. unfold renderCells.
  rewrite (for_each_call_some (cells s) renderCell cellCalls); [reflexivity|].
  intros cell Hin. apply renderCell_in_range.
  exact (proj1 (Forall_forall _ _) Hrange cell Hin).
Qed.

Lemma slabCell_edgesInRange (bottom top : Plane) :
  edgesInRange (slabCell bottom top).
Proof.
  unfold edgesInRange, indexInRange.
  change (length (cell_vertices (slabCell bottom top))) with 8%nat.
  change (cell_edges (slabCell bottom top))
    with [ mkEdge 0 1; mkEdge 4 5; mkEdge 0 4;
           mkEdge 1 2; mkEdge 5 6; mkEdge 1 5;
           mkEdge 2 3; mkEdge 6 7; mkEdge 2 6;
           mkEdge 3 0; mkEdge 7 4; mkEdge 3 7 ].
  repeat constructor; cbn [vertexIndex1 vertexIndex2]; lia.
Qed.

Lemma intersectionCell_edgesInRange (vs : list Vertex) (bps : list Plane) :
  addressable (intersectionCell vs bps) ->
  edgesInRange (intersectionCell vs bps).
Proof.
  unfold addressable, edgesInRange, indexInRange, intersectionCell.
  record_fields. intro Hsmall.
  eapply Forall_impl; [|apply intersectionEdges_inv].
  intros e (i & j & Hij & Hj & -> & _). cbn [vertexIndex1 vertexIndex2].
  rewrite !int_of_size_t_small by lia. lia.
Qed.

Lemma pipeline_edges_in_range (input : list ContourPlane) :
  Forall addressable (pipeline input) -> Forall edgesInRange (pipeline input).
Proof.
  rewrite pipeline_cells. intro Hsmall.
  apply Forall_app in Hsmall. destruct Hsmall as [_ Hsmall].
  apply Forall_app. split.
  - apply Forall_flat_map, Forall_forall. intros g _.
    eapply Forall_impl; [|apply groupSlabs_all_slabs].
    intros cell (bottom & top & ->). apply slabCell_edgesInRange.
  - unfold intersectionCells in *.
    destruct (_ <? 3)%nat; [constructor|].
    destruct (fst (intersectionLoop _)) as [|v vs]; [constructor|].
    inversion Hsmall; subst.
    constructor; [now apply intersectionCell_edgesInRange | constructor].
Qed.

(** X11.  On a partitioner whose cells all have their edge indices in
    range, [renderCells] reads no vertex outside a cell: it sets the
    polygon mode once and then issues, for each cell in order, [glBegin],
    one colour and two vertices per edge, and [glEnd]; two [glVertex3f]
    calls per edge in all. *)
Theorem render_issues_every_edge (s : SpacePartitioner) :
  Forall edgesInRange (cells s) ->
  renderCells s
  = Some (glPolygonMode_FRONT_AND_BACK_LINE :: flat_map cellCalls (cells s)) /\
  exists calls,
    renderCells s = Some calls /\
    vertexCalls calls = (2 * edgeCount (cells s))%nat /\
    length calls = (1 + 2 * length (cells s) + 3 * edgeCount (cells s))%nat.
Proof.
  intro Hrange. pose proof (renderCells_in_range s Hrange) as H.
  split; [exact H|]. eexists. split; [exact H|].
  destruct (vertexCalls_cells (cells s)) as [H1 H2].
  change (glPolygonMode_FRONT_AND_BACK_LINE :: flat_map cellCalls (cells s))
    with ([glPolygonMode_FRONT_AND_BACK_LINE] ++ flat_map cellCalls (cells s)).
  rewrite vertexCalls_app, length_app, H1, H2. cbn [length].
  unfold vertexCalls at 1. cbn [filter length]. lia.
Qed.

Lemma render_issues_every_edge_witness :
  renderCells (createSlabCell slabBottom slabTop newPartitioner)
  = Some (glPolygonMode_FRONT_AND_BACK_LINE
          :: flat_map cellCalls
               (cells (createSlabCell slabBottom slabTop newPartitioner))).
Proof.
  refine (proj1 (render_issues_every_edge
                   (createSlabCell slabBottom slabTop newPartitioner) _)).
  constructor; [apply slabCell_edgesInRange | constructor].
Defined.

Lemma slabs_addressable (cs : list ConvexCell) :
  Forall isSlabCell cs -> Forall addressable cs.
Proof.
  intro H. eapply Forall_impl; [|exact H].
  intros cell (bottom & top & ->). unfold addressable.
  change (length (cell_vertices (slabCell bottom top))) with 8%nat. lia.
Qed.

Lemma tilted_cells_addressable : Forall addressable (pipeline tiltedInput).
Proof.
  rewrite pipeline_cells.
  assert (H : notSelfParallel tiltedInput = []) by (vm_compute; reflexivity).
  rewrite H. apply Forall_app. split; [|constructor].
  apply slabs_addressable, Forall_flat_map, Forall_forall.
  intros g _. apply groupSlabs_all_slabs.
Qed.

(** X12.  After [computeCells] on a freshly constructed partitioner,
    [renderCells] never indexes outside a cell's vertex list, provided no
    cell has more than 2^31 vertices: every edge of every returned cell
    addresses two vertices of that cell, and the trace has two
    [glVertex3f] calls per edge, 24 for each slab cell. *)
Theorem render_after_compute (input : list ContourPlane) :
  Forall addressable (pipeline input) ->
  Forall edgesInRange (pipeline input) /\
  renderCells (fst (computeCells (construct input)))
  = Some (glPolygonMode_FRONT_AND_BACK_LINE
          :: flat_map cellCalls (pipeline input)) /\
  (2 * 12 * length (flat_map groupSlabs (parallelGroups (construct input)))
   <= vertexCalls (flat_map cellCalls (pipeline input)))%nat.
Proof.
  intro Hsmall. pose proof (pipeline_edges_in_range input Hsmall) as Hrange.
  split; [exact Hrange|].
  assert (Hcells : cells (fst (computeCells (construct input))) = pipeline input).
  { unfold pipeline.
    now destruct (computeCells_spec (construct input)) as (_ & _ & _ & _ & ->). }
  split.
  - rewrite renderCells_in_range; rewrite Hcells; [reflexivity | exact Hrange].
  - rewrite (proj1 (vertexCalls_cells _)). rewrite pipeline_cells.
    unfold edgeCount. rewrite flat_map_app, length_app.
    assert (Hslabs : forall cs, Forall isSlabCell cs ->
              length (flat_map cell_edges cs) = (12 * length cs)%nat).
    { induction 1 as [|cell cs (bottom & top & ->) _ IH]; [reflexivity|].
      cbn [flat_map length]. rewrite length_app, IH.
      change (length (cell_edges (slabCell bottom top))) with 12%nat. lia. }
    rewrite Hslabs; [lia|].
    apply Forall_flat_map, Forall_forall. intros g _. apply groupSlabs_all_slabs.
Qed.

Lemma render_after_compute_witness :
  Forall edgesInRange (pipeline tiltedInput) /\
  renderCells (fst (computeCells (construct tiltedInput)))
  = Some (glPolygonMode_FRONT_AND_BACK_LINE
          :: flat_map cellCalls (pipeline tiltedInput)).
Proof.
  destruct (render_after_compute tiltedInput tilted_cells_addressable)
    as (H1 & H2 & _).
  split; [exact H1 | exact H2].
Defined.

(** ** The bounding box of the input *)

Lemma f32_leb_refl (x : float) : F32.is_nan x = false -> F32.leb x x = true.
Proof.
  unfold F32.leb, SFleb. destruct x as [s|s| |s m e]; try reflexivity.
  - now destruct s.
  - discriminate.
  - intros _. simpl. rewrite Z.compare_refl.
    change (Pos.compare_cont Eq m m) with (Pos.compare m m).
    rewrite Pos.compare_refl. now destruct s.
Qed.

Lemma f32_ltb_leb (x y : float) : (x <? y)%F = true -> F32.leb x y = true.
Proof.
  unfold F32.ltb, F32.leb, SFltb, SFleb.
  destruct (SFcompare x y) as [[| |]|]; congruence.
Qed.

Lemma f32_ltb_not_nan (x y : float) :
  (x <? y)%F = true -> F32.is_nan x = false.
Proof. destruct x; try reflexivity. discriminate. Qed.

Lemma std_min_not_nan (m x : float) :
  F32.is_nan m = false -> F32.is_nan (F32.std_min m x) = false.
Proof.
  intro Hm. unfold F32.std_min. destruct (x <? m)%F eqn:Hlt; [|exact Hm].
  exact (f32_ltb_not_nan _ _ Hlt).
Qed.

Lemma std_max_not_nan (m x : float) :
  F32.is_nan m = false -> F32.is_nan (F32.std_max m x) = false.
Proof.
  intro Hm. unfold F32.std_max. destruct (m <? x)%F eqn:Hlt; [|exact Hm].
  destruct x; try reflexivity. now destruct m.
Qed.

Lemma std_min_max_new (lo hi x : float) :
  F32.is_nan lo = false -> F32.is_nan hi = false ->
  between (F32.std_min lo x) x (F32.std_max hi x).
Proof.
  intros Hlo Hhi Hx. unfold F32.std_min, F32.std_max. split.
  - destruct (x <? lo)%F eqn:Hlt; [now apply f32_leb_refl|].
    now apply f32_not_ltb_leb.
  - destruct (hi <? x)%F eqn:Hlt; [now apply f32_leb_refl|].
    now apply f32_not_ltb_leb.
Qed.

Lemma std_min_max_keep (lo hi x t : float) :
  between lo t hi -> between (F32.std_min lo x) t (F32.std_max hi x).
Proof.
  intros Hb Ht. destruct (Hb Ht) as [H1 H2].
  unfold F32.std_min, F32.std_max. split.
  - destruct (x <? lo)%F eqn:Hlt; [|exact H1].
    eapply f32_leb_trans; [apply f32_ltb_leb, Hlt | exact H1].
  - destruct (hi <? x)%F eqn:Hlt; [|exact H2].
    eapply f32_leb_trans; [exact H2 | apply f32_ltb_leb, Hlt].
Qed.

Lemma cornersNotNaN_fields (bbox : BoundingBox) :
  cornersNotNaN bbox = true <->
  (F32.is_nan (glm.x (bmin bbox)) = false /\
   F32.is_nan (glm.y (bmin bbox)) = false /\
   F32.is_nan (glm.z (bmin bbox)) = false) /\
  (F32.is_nan (glm.x (bmax bbox)) = false /\
   F32.is_nan (glm.y (bmax bbox)) = false /\
   F32.is_nan (glm.z (bmax bbox)) = false).
Proof.
  unfold cornersNotNaN, hasNaN.
  rewrite andb_true_iff, !negb_true_iff, !orb_false_iff. tauto.
Qed.

Lemma growBox_not_nan (w : Vertex) (bbox : BoundingBox) :
  cornersNotNaN bbox = true -> cornersNotNaN (growBox w bbox) = true.
Proof.
  rewrite !cornersNotNaN_fields. unfold growBox.
  cbn [bmin bmax glm.x glm.y glm.z].
  intros ((H1 & H2 & H3) & (H4 & H5 & H6)).
  repeat split; first [now apply std_min_not_nan | now apply std_max_not_nan].
Qed.

Lemma growBox_around_new (v : Vertex) (bbox : BoundingBox) :
  cornersNotNaN bbox = true -> boxAround (growBox v bbox) v.
Proof.
  rewrite cornersNotNaN_fields. unfold boxAround, growBox.
  cbn [bmin bmax glm.x glm.y glm.z].
  intros ((H1 & H2 & H3) & (H4 & H5 & H6)).
  split; [|split]; now apply std_min_max_new.
Qed.

Lemma growBox_around_keep (v w : Vertex) (bbox : BoundingBox) :
  boxAround bbox v -> boxAround (growBox w bbox) v.
Proof.
  unfold boxAround, growBox. cbn [bmin bmax glm.x glm.y glm.z].
  intros (H1 & H2 & H3). split; [|split]; now apply std_min_max_keep.
Qed.

Lemma scan_vertices_keep (v : Vertex) (vs : list Vertex) (bbox : BoundingBox) :
  (cornersNotNaN bbox = true ->
   cornersNotNaN (for_each vs growBox bbox) = true) /\
  (boxAround bbox v -> boxAround (for_each vs growBox bbox) v).
Proof.
  split.
  - apply (for_each_inv (fun b => cornersNotNaN b = true)).
    intros w b _. apply growBox_not_nan.
  - apply (for_each_inv (fun b => boxAround b v)).
    intros w b _. apply growBox_around_keep.
Qed.

Lemma scan_vertices_new (v : Vertex) (vs : list Vertex) (bbox : BoundingBox) :
  In v vs -> cornersNotNaN bbox = true ->
  boxAround (for_each vs growBox bbox) v.
Proof.
  intros Hin Hbox. apply in_split in Hin. destruct Hin as (l1 & l2 & ->).
  rewrite for_each_app, for_each_cons.
  apply (proj2 (scan_vertices_keep v l2 _)).
  apply growBox_around_new.
  now apply (proj1 (scan_vertices_keep v l1 bbox)).
Qed.

Lemma scan_planes (v : Vertex) (l : list ContourPlane) (bbox : BoundingBox) :
  (cornersNotNaN bbox = true ->
   cornersNotNaN
     (for_each l (fun cp => for_each (vertices cp) growBox) bbox) = true) /\
  (boxAround bbox v ->
   boxAround (for_each l (fun cp => for_each (vertices cp) growBox) bbox) v).
Proof.
  split.
  - apply (for_each_inv (fun b => cornersNotNaN b = true)).
    intros cp b _. apply (proj1 (scan_vertices_keep v (vertices cp) b)).
  - apply (for_each_inv (fun b => boxAround b v)).
    intros cp b _. apply (proj2 (scan_vertices_keep v (vertices cp) b)).
Qed.

(** X13.  The scan of [computeTightBoundingBox] (before the expansion
    about the centre) yields a box no corner coordinate of which is NaN,
    whatever the vertices, and which contains every polygon vertex of
    every plane: each coordinate of the vertex that is a number lies
    between the corresponding coordinates of the two corners.  A NaN
    coordinate of a vertex is skipped by [std::min] and [std::max]. *)
Theorem tight_box_contains_vertices (s : SpacePartitioner)
    (cp : ContourPlane) (v : Vertex) :
  In cp (originalPlanes s) -> In v (vertices cp) ->
  computeTightBoundingBox s = expandBox (tightBox s) /\
  cornersNotNaN (tightBox s) = true /\
  boxAround (tightBox s) v.
Proof.
  intros Hcp Hv. split; [reflexivity|].
  unfold tightBox.
  set (init := mkBoundingBox (glm.splat F32.FLT_MAX)
                             (glm.splat (- F32.FLT_MAX)%F)).
  assert (Hinit : cornersNotNaN init = true) by reflexivity.
  split; [now apply (proj1 (scan_planes v (originalPlanes s) init))|].
  apply in_split in Hcp. destruct Hcp as (l1 & l2 & ->).
  rewrite for_each_app, for_each_cons.
  apply (proj2 (scan_planes v l2 _)).
  apply scan_vertices_new; [exact Hv|].
  now apply (proj1 (scan_planes v l1 init)).
Qed.

Lemma tight_box_contains_vertices_witness :
  boxAround (tightBox (mkSpacePartitioner tiltedInput [] [] [] []))
            (Vertex_xyz F32.one (- F32.one)%F F32.zero).
Proof.
  refine (proj2 (proj2 (tight_box_contains_vertices
                   (mkSpacePartitioner tiltedInput [] [] [] []) tiltedPlane
                   (Vertex_xyz F32.one (- F32.one)%F F32.zero) _ _))).
  - left. reflexivity.
  - right. left. reflexivity.
Defined.

(** X14.  When no plane of the input carries a polygon vertex (the empty
    input included), [computeTightBoundingBox] returns an inverted,
    infinite box: the minimum corner is (+inf, +inf, +inf) and the maximum
    corner is (-inf, -inf, -inf), so the constructor adds six closure
    planes whose offsets are all -infinity. *)
Theorem no_vertices_inverted_box (input : list ContourPlane) :
  Forall (fun cp => vertices cp = []) input ->
  computeTightBoundingBox (mkSpacePartitioner input [] [] [] []) = invertedBox /\
  originalPlanes (construct input)
  = input ++ map (boxContour invertedBox) (seq 0 6) /\
  forall i, d (boxPlane invertedBox i) = S754_infinity true.
Proof.
  intro Hnone.
  assert (Hbox : computeTightBoundingBox (mkSpacePartitioner input [] [] [] [])
                 = invertedBox).
  { unfold computeTightBoundingBox. record_fields. cbv zeta.
    set (init := mkBoundingBox (glm.splat F32.FLT_MAX)
                               (glm.splat (- F32.FLT_MAX)%F)).
    assert (Hscan : for_each input
                      (fun cp => for_each (vertices cp) growBox) init = init).
    { apply (for_each_inv (fun b => b = init)); [|reflexivity].
      intros cp b Hin ->.
      now rewrite (proj1 (Forall_forall _ _) Hnone cp Hin). }
    rewrite Hscan. vm_compute. reflexivity. }
  split; [exact Hbox|]. split.
  - now rewrite construct_originalPlanes, Hbox.
  - intro i. do 6 (destruct i as [|i]; [reflexivity|]). reflexivity.
Qed.

Lemma no_vertices_inverted_box_witness :
  computeTightBoundingBox (mkSpacePartitioner zAxisPlanes [] [] [] [])
  = invertedBox.
Proof.
  refine (proj1 (no_vertices_inverted_box zAxisPlanes _)).
  repeat constructor.
Defined.

(** ** The loops of the solver, in closed form *)

Lemma for_range_ext {S : Type} (lo hi : nat) (body body' : nat -> S -> S) (s : S) :
  (forall i st, (lo <= i < hi)%nat -> body i st = body' i st) ->
  for_range lo hi body s = for_range lo hi body' s.
Proof.
  unfold for_range. intro Hext.
  assert (H : forall l st, (forall i, In i l -> (lo <= i < hi)%nat) ->
            fold_left (fun acc i => body i acc) l st
            = fold_left (fun acc i => body' i acc) l st).
  { induction l as [|i l IH]; intros st Hl; [reflexivity|]. simpl.
    rewrite Hext by (apply Hl; now left). apply IH.
    intros i' Hi'. apply Hl. now right. }
  apply H. intros i Hi. apply in_seq in Hi. lia.
Qed.

Lemma for_range_append {A : Type} (lo hi : nat) (f : nat -> list A) (init : list A) :
  for_range lo hi (fun i acc => acc ++ f i) init
  = init ++ flat_map f (seq lo (hi - lo)).
Proof.
  unfold for_range. generalize (seq lo (hi - lo)) as l. intro l. revert init.
  induction l as [|i l IH]; intro init; simpl.
  - now rewrite app_nil_r.
  - now rewrite IH, <- app_assoc.
Qed.

Lemma for_range_append_fst {A B : Type} (lo hi : nat) (f : nat -> list A)
    (st : list A * B) :
  for_range lo hi (fun i st => (fst st ++ f i, snd st)) st
  = (fst st ++ flat_map f (seq lo (hi - lo)), snd st).
Proof.
  unfold for_range. generalize (seq lo (hi - lo)) as l. intro l. revert st.
  induction l as [|i l IH]; intros [vs ds]; simpl.
  - now rewrite app_nil_r.
  - rewrite IH. simpl. now rewrite <- app_assoc.
Qed.

Lemma intersectionEdges_closed (vs : list Vertex) :
  intersectionEdges vs
  = flat_map (fun i => flat_map (pairEdges vs i)
                         (seq (i + 1) (length vs - (i + 1))))
             (seq 0 (length vs)).
Proof.
  unfold intersectionEdges. cbv zeta.
  rewrite (for_range_ext 0 (length vs) _
             (fun i es => es ++ flat_map (pairEdges vs i)
                                 (seq (i + 1) (length vs - (i + 1))))).
  - rewrite for_range_append. cbn [app]. now rewrite Nat.sub_0_r.
  - intros i es _. rewrite <- for_range_append.
    apply for_range_ext. intros j es' _. unfold pairEdges.
    destruct (2 <=? _)%nat; [reflexivity | now rewrite app_nil_r].
Qed.

(** X15.  The edge loop of [createCellFromIntersection] is exact: the cell
    has an edge (i, j) if and only if i < j are indices of two of its
    vertices whose sorted plane-index lists have at least two entries in
    common.  No such pair is left out, and nothing else is emitted. *)
Theorem intersection_edges_exact (vs : list Vertex) (bps : list Plane) (e : Edge) :
  In e (cell_edges (intersectionCell vs bps)) <-> exists i j, joins vs e i j.
Proof.
  unfold intersectionCell. record_fields. rewrite intersectionEdges_closed.
  rewrite in_flat_map. split.
  - intros (i & Hi & He). apply in_flat_map in He. destruct He as (j & Hj & He).
    apply in_seq in Hi, Hj. unfold pairEdges in He.
    destruct (Nat.leb_spec 2 (length (sharedPlanes (nth i vs no_vertex)
                                                   (nth j vs no_vertex))));
      [|destruct He].
    destruct He as [<-|[]]. exists i, j. unfold joins. repeat split; lia.
  - intros (i & j & Hij & Hj & -> & Hshared). exists i. split.
    + apply in_seq. lia.
    + apply in_flat_map. exists j. split; [apply in_seq; lia|].
      unfold pairEdges.
      destruct (Nat.leb_spec 2 (length (sharedPlanes (nth i vs no_vertex)
                                                     (nth j vs no_vertex))));
        [now left | lia].
Qed.

Lemma tripleBody_closed (planes : list ContourPlane) (i j k : nat)
    (st : solver_state) :
  tripleBody planes i j k st = (fst st ++ tripleVertices planes i j k, snd st).
Proof.
  unfold tripleBody, tripleVertices, pairwiseNonParallel, tryIntersection,
    candidate, position. cbv zeta. cbn [vx vy vz].
  destruct (arePlanesParallel _ _ || arePlanesParallel _ _ || arePlanesParallel _ _).
  - cbn [negb andb]. rewrite app_nil_r. now destruct st.
  - cbn [negb andb].
    match goal with |- context [isValid planes ?p] =>
      replace (glm.mkvec3 (glm.x p) (glm.y p) (glm.z p)) with p
        by now destruct p
    end.
    destruct (isValid planes _); [reflexivity|].
    rewrite app_nil_r. now destruct st.
Qed.

Lemma intersectionLoop_closed (planes : list ContourPlane) :
  intersectionLoop planes
  = (flat_map (fun i =>
       flat_map (fun j =>
         flat_map (tripleVertices planes i j)
                  (seq (j + 1) (length planes - (j + 1))))
         (seq (i + 1) (length planes - 1 - (i + 1))))
       (seq 0 (length planes - 2)),
     []).
Proof.
  unfold intersectionLoop, solver_state. cbv zeta.
  rewrite (for_range_ext 0 (length planes - 2) _
             (fun i st =>
                (fst st ++ flat_map (fun j =>
                   flat_map (tripleVertices planes i j)
                            (seq (j + 1) (length planes - (j + 1))))
                   (seq (i + 1) (length planes - 1 - (i + 1))),
                 snd st))).
  - rewrite for_range_append_fst. cbn [fst snd app]. now rewrite Nat.sub_0_r.
  - intros i st _. rewrite <- for_range_append_fst.
    apply for_range_ext. intros j st' _.
    rewrite <- for_range_append_fst.
    apply for_range_ext. intros k st'' _. apply tripleBody_closed.
Qed.

(** X16.  The triple loop of [findIntersectionVertices] is exact: a
    vertex is accepted if and only if it is the candidate of three planes
    of indices i < j < k that are pairwise non-parallel and whose computed
    intersection passes the validity test against all planes.  Nothing is
    ever reported on the error stream. *)
Theorem accepted_vertices_exact (planes : list ContourPlane) (v : Vertex) :
  (In v (fst (intersectionLoop planes)) <->
   exists i j k,
     (i < j < k)%nat /\ (k < length planes)%nat /\
     pairwiseNonParallel planes i j k = true /\
     isValid planes (position (candidate planes i j k)) = true /\
     v = candidate planes i j k) /\
  snd (intersectionLoop planes) = [].
Proof.
  rewrite intersectionLoop_closed. cbn [fst snd].
  split; [|reflexivity].
  - rewrite in_flat_map. split.
    + intros (i & Hi & Hv). apply in_flat_map in Hv. destruct Hv as (j & Hj & Hv).
      apply in_flat_map in Hv. destruct Hv as (k & Hk & Hv).
      apply in_seq in Hi, Hj, Hk. unfold tripleVertices in Hv.
      destruct (pairwiseNonParallel planes i j k) eqn:Hpar; [|destruct Hv].
      destruct (isValid planes _) eqn:Hvalid; [|destruct Hv].
      destruct Hv as [<-|[]]. exists i, j, k. repeat split; try lia; assumption.
    + intros (i & j & k & Hijk & Hk & Hpar & Hvalid & ->).
      exists i. split; [apply in_seq; lia|].
      apply in_flat_map. exists j. split; [apply in_seq; lia|].
      apply in_flat_map. exists k. split; [apply in_seq; lia|].
      unfold tripleVertices. rewrite Hpar, Hvalid. now left.
Qed.

(** ** The shape of the groups *)

Lemma joinGroup_coherent (cp : ContourPlane) (gs gs' : list PlaneGroup) :
  joinGroup cp gs = Some gs' ->
  Forall groupCoherent gs -> Forall groupCoherent gs'.
Proof.
  revert gs'. induction gs as [|g gs IH]; simpl; intros gs' H Hall; [discriminate|].
  inversion Hall as [|? ? Hg Hgs]; subst.
  destruct (parallel_to_front (plane cp) g) eqn:Hp.
  - inversion H; subst; clear H. constructor; [|exact Hgs].
    destruct Hg as (front & rest & Hfront & Hrest).
    unfold parallel_to_front in Hp. rewrite Hfront in Hp.
    exists front, (rest ++ [cp]). cbn [planes]. rewrite Hfront.
    split; [reflexivity|]. apply Forall_app. split; [exact Hrest|].
    constructor; [|constructor].
    split; [exact Hp|]. split; [exact (parallel_selfParallel _ _ Hp)|].
    rewrite arePlanesParallel_sym in Hp. exact (parallel_selfParallel _ _ Hp).
  - destruct (joinGroup cp gs) as [r|]; [|discriminate].
    inversion H; subst; clear H. constructor; [exact Hg | now apply IH].
Qed.

Lemma classifyPlane_coherent (cp : ContourPlane) (gs : list PlaneGroup) :
  Forall groupCoherent gs -> Forall groupCoherent (classifyPlane cp gs).
Proof.
  intro Hall. unfold classifyPlane.
  destruct (joinGroup cp gs) as [gs'|] eqn:Hj.
  - eapply joinGroup_coherent; eassumption.
  - apply Forall_app. split; [exact Hall|].
    constructor; [|constructor]. exists cp, []. now split.
Qed.

(** X17.  In every group the constructor builds, for every input, each
    plane after the first is parallel within tolerance to the first, and
    then both are parallel to themselves.  Hence a plane that is not
    parallel to itself (zero, underflowing or non-finite normal) sits alone
    in a group of its own. *)
Theorem group_members_parallel_to_front (input : list ContourPlane) :
  Forall groupCoherent (parallelGroups (construct input)) /\
  Forall (fun g => forall front rest,
            planes g = front :: rest ->
            selfParallel (plane front) = false -> rest = [])
         (parallelGroups (construct input)).
Proof.
  assert (H : Forall groupCoherent (parallelGroups (construct input))).
  { destruct (construct_fields input) as (_ & _ & _ & ->).
    apply (for_each_inv (Forall groupCoherent)); [|constructor].
    intros cp gs _. apply classifyPlane_coherent. }
  split; [exact H|].
  eapply Forall_impl; [|exact H].
  intros g (front & rest & Hfront & Hrest) front' rest' Hplanes Hself.
  rewrite Hfront in Hplanes. inversion Hplanes; subst.
  destruct Hrest as [|q rest (_ & _ & Hq) _]; [reflexivity | congruence].
Qed.

Lemma frontsApart_same_fronts (g g' h h' : PlaneGroup) :
  front_of g = front_of g' -> front_of h = front_of h' ->
  frontsApart g h -> frontsApart g' h'.
Proof.
  intros Hg Hh (p & q & H1 & H2 & H3). exists p, q.
  rewrite <- Hg, <- Hh. now split.
Qed.

Lemma apart_same_fronts (gs gs' : list PlaneGroup) :
  map front_of gs' = map front_of gs ->
  ForallOrdPairs frontsApart gs -> ForallOrdPairs frontsApart gs'.
Proof.
  intros Hmap Hall. revert gs' Hmap.
  induction Hall as [|g gs Hg _ IH]; intros [|g' gs'] Hmap;
    try discriminate; [constructor|].
  cbn [map] in Hmap. inversion Hmap as [[Hfront Hrest]].
  constructor; [|now apply IH].
  clear IH Hmap. revert gs' Hrest.
  induction Hg as [|h gs Hh _ IHg]; intros [|h' gs'] Hrest;
    try discriminate; [constructor|].
  cbn [map] in Hrest. inversion Hrest as [[Hh' Hrest']].
  constructor; [|now apply IHg].
  now apply (frontsApart_same_fronts g g' h h').
Qed.

Lemma apart_snoc (gs : list PlaneGroup) (new : PlaneGroup) :
  ForallOrdPairs frontsApart gs ->
  Forall (fun g => frontsApart g new) gs ->
  ForallOrdPairs frontsApart (gs ++ [new]).
Proof.
  induction 1 as [|g gs Hg _ IH]; intro Hnew.
  - cbn [app]. constructor; constructor.
  - inversion Hnew as [|? ? Hgnew Hrest]; subst. cbn [app].
    constructor; [|now apply IH].
    apply Forall_app. split; [exact Hg|]. now constructor.
Qed.

Lemma classifyPlane_apart (cp : ContourPlane) (gs : list PlaneGroup) :
  Forall wellBuiltGroup gs ->
  ForallOrdPairs frontsApart gs ->
  ForallOrdPairs frontsApart (classifyPlane cp gs).
Proof.
  intros Hbuilt Hapart. unfold classifyPlane.
  destruct (joinGroup cp gs) as [gs'|] eqn:Hj.
  - destruct (joinGroup_some _ _ _ Hj) as [Hfronts _].
    now apply (apart_same_fronts gs gs').
  - apply apart_snoc; [exact Hapart|].
    pose proof (joinGroup_none _ _ Hj) as Hnone.
    apply Forall_forall. intros g Hin.
    destruct (proj1 (Forall_forall _ _) Hbuilt g Hin) as (front & rest & Hfront & _).
    assert (Hg : parallel_to_front (plane cp) g = false).
    { apply not_true_is_false. intro Hp.
      assert (Hex : existsb (parallel_to_front (plane cp)) gs = true)
        by (apply existsb_exists; now exists g).
      congruence. }
    unfold parallel_to_front in Hg. rewrite Hfront in Hg.
    exists front, cp. unfold front_of. rewrite Hfront. cbn [planes hd_error].
    split; [reflexivity|]. split; [reflexivity|]. split; [exact Hg|].
    now rewrite arePlanesParallel_sym.
Qed.

(** X18.  The groups the constructor builds have pairwise non-parallel
    front planes, for every input: a group is opened only for a plane that
    is parallel within tolerance to the front plane of no earlier group,
    and the front plane of a group never changes. *)
Theorem group_fronts_not_parallel (input : list ContourPlane) :
  ForallOrdPairs frontsApart (parallelGroups (construct input)).
Proof.
  destruct (construct_fields input) as (_ & _ & _ & ->).
  assert (H : Forall wellBuiltGroup
                (for_each (originalPlanes (construct input)) classifyPlane []) /\
              ForallOrdPairs frontsApart
                (for_each (originalPlanes (construct input)) classifyPlane [])).
  { apply (for_each_inv (fun gs => Forall wellBuiltGroup gs /\
                                   ForallOrdPairs frontsApart gs)).
    - intros cp gs _ [Hbuilt Hapart]. split.
      + now apply (proj2 (classifyPlane_partition cp gs)).
      + now apply classifyPlane_apart.
    - split; constructor. }
  exact (proj2 H).
Qed.

(** ** The parallel test inside the solver *)

Lemma notSelfParallel_nth (input : list ContourPlane) (i : nat) :
  (i < length (notSelfParallel input))%nat ->
  selfParallel (plane (nth i (notSelfParallel input) no_contour)) = false.
Proof.
  intro Hi. pose proof (nth_In (notSelfParallel input) no_contour Hi) as Hin.
  unfold notSelfParallel in Hin at 2. apply filter_In in Hin.
  destruct Hin as [_ Hin]. now apply negb_true_iff in Hin.
Qed.

(** X19.  Through [computeCells] the parallel test of the triple loop
    never skips a triple: the planes handed to the solver are the ones
    that are not parallel to themselves, and such a plane is parallel to
    no plane.  Every triple i < j < k of the collected planes is solved,
    and its point is accepted exactly when it passes the validity test. *)
Theorem parallel_skip_never_taken (input : list ContourPlane) (i j k : nat) :
  (i < j < k)%nat -> (k < length (notSelfParallel input))%nat ->
  pairwiseNonParallel (notSelfParallel input) i j k = true /\
  tripleVertices (notSelfParallel input) i j k
  = (if isValid (notSelfParallel input)
          (position (candidate (notSelfParallel input) i j k))
     then [candidate (notSelfParallel input) i j k] else []).
Proof.
  intros Hijk Hk.
  assert (Hno : forall n q, (n < length (notSelfParallel input))%nat ->
            arePlanesParallel (plane (nth n (notSelfParallel input) no_contour)) q
            = false).
  { intros n q Hn. apply not_true_is_false. intro Hp.
    apply parallel_selfParallel in Hp.
    rewrite (notSelfParallel_nth input n Hn) in Hp. discriminate. }
  assert (Hpar : pairwiseNonParallel (notSelfParallel input) i j k = true).
  { unfold pairwiseNonParallel. cbv zeta. now rewrite !Hno by lia. }
  split; [exact Hpar|]. unfold tripleVertices. now rewrite Hpar.
Qed.

Lemma parallel_skip_never_taken_witness :
  pairwiseNonParallel (notSelfParallel tinyInput) 0 1 2 = true.
Proof.
  refine (proj1 (parallel_skip_never_taken tinyInput 0 1 2 _ _)).
  - lia.
  - vm_compute. lia.
Defined.
